(** * pyspatialopt: binary MCLP from a distance matrix

    A shallow embedding of [examples/binary_mclp_distance_matrix.py]:
    the coverage builder [generate_binary_coverage_from_dist_matrix], the
    result summarizer at the end of [binary_mclp_distance_matrix], and the
    orchestration around them.

    Conventions of the embedding.
    - A Python [float] is an IEEE 754 binary64 number: Rocq's primitive
      [float], with [PrimFloat.add], [PrimFloat.mul], [PrimFloat.div] and
      [PrimFloat.leb] for [+], [*], [/] and [<=].  The distance threshold is
      the float it compares as.
    - A CSV row is the [dict] that [csv.DictReader] yields: a finite map from
      column names to cell strings ([str] of a cell is the cell).  [float]
      of a cell is a parameter [py_float] of the builder.
    - [output["demand"]] is a [dict] that the code iterates over, and a
      [dict] iterates in insertion order; the order matters, since the
      totals are floating-point sums.  It is an insertion-ordered dictionary
      [odict].  The inner coverage dictionaries and the Python [set]s are only
      tested for membership or emptiness of an intersection: [gmap], [gset].
    - Exceptions are values of [exn]; a computation that may raise returns a
      [result]; [print] and [logging.info] act on an explicit [world].
    - Reading the CSV file, building the MILP and solving it are done by
      libraries: the loaded rows are an argument of
      [binary_mclp_distance_matrix], and the solver is a parameter: a
      computation that may print, log and raise. *)

From Stdlib Require Import ZArith Lia Floats Ascii.
From stdpp Require Import base option list strings gmap.

Local Open Scope string_scope.

(** ** Exceptions and results *)

Inductive exn : Type :=
| KeyError (key : string)
| ValueError (arg : string)
| IndexError
| ZeroDivisionError
| SystemExit (code : Z)
| ExternalError (msg : string).

Inductive result (A : Type) : Type :=
| Ok (a : A)
| Raise (e : exn).
Arguments Ok {A} a.
Arguments Raise {A} e.

#[export] Instance result_ret : MRet result := fun A a => Ok a.
#[export] Instance result_bind : MBind result := fun A B k r =>
  match r with
  | Ok a => k a
  | Raise e => Raise e
  end.

(** [for x in l: s = f(s, x)], stopping at the first exception. *)
Fixpoint for_each {S A : Type} (f : S → A → result S) (l : list A) (s : S) : result S :=
  match l with
  | [] => Ok s
  | x :: l' => s' ← f s x; for_each f l' s'
  end.

(** ** Python floats *)

Module PyFloat.

Definition zero : float := 0%float.

(** [x / y] on floats: Python raises [ZeroDivisionError] when [y == 0]
    (either sign of zero) instead of returning an infinity or a NaN. *)
Definition truediv (x y : float) : result float :=
  if PrimFloat.eqb y zero then Raise ZeroDivisionError else Ok (PrimFloat.div x y).

(** The value of one decimal digit. *)
Definition digit (c : Ascii.ascii) : option float :=
  if Ascii.eqb c "0"%char then Some 0%float
  else if Ascii.eqb c "1"%char then Some 1%float
  else if Ascii.eqb c "2"%char then Some 2%float
  else if Ascii.eqb c "3"%char then Some 3%float
  else if Ascii.eqb c "4"%char then Some 4%float
  else if Ascii.eqb c "5"%char then Some 5%float
  else if Ascii.eqb c "6"%char then Some 6%float
  else if Ascii.eqb c "7"%char then Some 7%float
  else if Ascii.eqb c "8"%char then Some 8%float
  else if Ascii.eqb c "9"%char then Some 9%float
  else None.

Fixpoint digits (s : string) (acc : float) : option float :=
  match s with
  | EmptyString => Some acc
  | String c s' =>
      match digit c with
      | Some d => digits s' (PrimFloat.add (PrimFloat.mul acc 10) d)
      | None => None
      end
  end.

(** A concrete reading of [float(s)] on the fragment the examples use:
    an optional minus sign followed by at most 16 decimal digits.  The
    first 15 digits give an integer below [2^50], held exactly; the
    multiplication by ten that precedes a sixteenth digit is exact as well
    (an even integer below [2^54]), and the last addition rounds once, to
    nearest even: the result is the correctly rounded value, as Python's.
    The general theorems do not use this parser: they hold for every
    [py_float]. *)
Definition of_decimal (s : string) : option float :=
  match s with
  | EmptyString => None
  | String c s' =>
      if Ascii.eqb c "-"%char then
        match s' with
        | EmptyString => None
        | _ => if Nat.leb (String.length s') 16
               then PrimFloat.opp <$> digits s' zero else None
        end
      else if Nat.leb (String.length s) 16 then digits s zero else None
  end.

End PyFloat.

(** ** Insertion-ordered dictionaries with string keys *)

Abbreviation odict V := (list (string * V)).

(** [k in d] and [d[k]]: the value under [k], if any. *)
Fixpoint dget {V : Type} (d : odict V) (k : string) : option V :=
  match d with
  | [] => None
  | (k', v) :: d' => if decide (k' = k) then Some v else dget d' k
  end.

(** [d[k] = v]: replaces the value of an existing key in place, and appends
    a new key at the end. *)
Fixpoint dset {V : Type} (d : odict V) (k : string) (v : V) : odict V :=
  match d with
  | [] => [(k, v)]
  | (k', v') :: d' => if decide (k' = k) then (k, v) :: d' else (k', v') :: dset d' k v
  end.

Definition dkeys {V : Type} (d : odict V) : list string := d.*1.
Definition dvalues {V : Type} (d : odict V) : list V := d.*2.

(** [d[k]] where a missing key raises. *)
Definition dgetitem {V : Type} (d : odict V) (k : string) : result V :=
  match dget d k with
  | Some v => Ok v
  | None => Raise (KeyError k)
  end.

Definition getitem {V : Type} (m : gmap string V) (k : string) : result V :=
  match m !! k with
  | Some v => Ok v
  | None => Raise (KeyError k)
  end.

(** [l[i]] on a list, for a non-negative index. *)
Definition list_getitem {A : Type} (l : list A) (i : nat) : result A :=
  match l !! i with
  | Some x => Ok x
  | None => Raise IndexError
  end.

(** ** The data model *)

(** One row of the distance matrix as loaded from the CSV file. *)
Abbreviation row := (gmap string string).

(** The value stored under each demand id. *)
Module Demand.
Record t : Type := Build {
  area : Z;
  demand : float;
  serviceableDemand : float;
  coverage : gmap string (gmap string Z)
}.

Definition set_serviceableDemand (e : t) (x : float) : t :=
  {| area := area e; demand := demand e;
     serviceableDemand := x; coverage := coverage e |}.

Definition set_coverage (e : t) (c : gmap string (gmap string Z)) : t :=
  {| area := area e; demand := demand e;
     serviceableDemand := serviceableDemand e; coverage := c |}.
End Demand.

(** The coverage object that the builder returns. *)
Record coverage_model : Type := {
  version : string;
  type_mode : string;
  type_type : string;
  demand : odict Demand.t;
  totalDemand : float;
  totalServiceableDemand : float;
  facilities : gmap string (list string)
}.

(** The record that [binary_mclp_distance_matrix] returns. *)
Record result_coverage : Type := {
  number_facility : Z;
  number_facility_chosen : nat;
  set_facility_id_chosen : gset string;
  total_demand : float;
  percent_demand_coverage : float
}.

(** ** Effects: standard output and the root logger *)

Record world : Type := World {
  stdout : list string;
  log : list string
}.

Definition M (A : Type) : Type := world → world * result A.

#[export] Instance M_ret : MRet M := fun A a w => (w, Ok a).
#[export] Instance M_bind : MBind M := fun A B k m w =>
  match m w with
  | (w', Ok a) => k a w'
  | (w', Raise e) => (w', Raise e)
  end.

Definition lift {A : Type} (r : result A) : M A := fun w => (w, r).

(** [print(msg)] *)
Definition print (msg : string) : M unit :=
  fun w => (World (stdout w ++ [msg]) (log w), Ok tt).

(** [logging.getLogger().info(msg)] *)
Definition logging_info (msg : string) : M unit :=
  fun w => (World (stdout w) (log w ++ [msg]), Ok tt).

(** [sys.exit(code)] *)
Definition sys_exit {A : Type} (code : Z) : M A := lift (Raise (SystemExit code)).

(** ** The coverage builder *)

Section CoverageBuilder.

(** Python's [float(s)] on a string: [None] where it raises [ValueError]. *)
Variable py_float : string → option float.

Definition float_of (s : string) : result float :=
  match py_float s with
  | Some x => Ok x
  | None => Raise (ValueError s)
  end.

Variables (dl_id_field fl_id_field demand_field distance_field : string).

(** The state of the first loop: [output["demand"]], [set_facility_id]
    and [set_demand_id]. *)
Definition init_state : Type := odict Demand.t * gset string * gset string.

(** Body of the first loop (one row). *)
Definition init_row (fl_variable_name : string) (st : init_state) (r : row)
  : result init_state :=
  let '(output_demand, set_facility_id, set_demand_id) := st in
  facility_id ← getitem r fl_id_field;
  let set_facility_id := set_facility_id ∪ {[facility_id]} in
  new_demand_id ← getitem r dl_id_field;
  if decide (new_demand_id ∉ set_demand_id) then
    cell ← getitem r demand_field;
    weight ← float_of cell;
    Ok (dset output_demand new_demand_id
          {| Demand.area := 0;
             Demand.demand := weight;
             Demand.serviceableDemand := PyFloat.zero;
             Demand.coverage := {[ fl_variable_name := ∅ ]} |},
        set_facility_id,
        set_demand_id ∪ {[new_demand_id]})
  else Ok (output_demand, set_facility_id, set_demand_id).

(** Body of the second loop (one row). *)
Definition cover_row (fl_variable_name : string) (dist_threshold : float)
    (output_demand : odict Demand.t) (r : row) : result (odict Demand.t) :=
  cell ← getitem r distance_field;
  dist ← float_of cell;
  if PrimFloat.leb dist dist_threshold then
    (* output["demand"][id]["serviceableDemand"] = output["demand"][id]["demand"] *)
    id ← getitem r dl_id_field;
    src ← dgetitem output_demand id;
    id ← getitem r dl_id_field;
    dst ← dgetitem output_demand id;
    let output_demand :=
      dset output_demand id (Demand.set_serviceableDemand dst (Demand.demand src)) in
    (* output["demand"][id]["coverage"][fl_variable_name][facility] = 1 *)
    id ← getitem r dl_id_field;
    obj ← dgetitem output_demand id;
    covering ← getitem (Demand.coverage obj) fl_variable_name;
    facility_id ← getitem r fl_id_field;
    Ok (dset output_demand id
          (Demand.set_coverage obj
             (<[ fl_variable_name := <[ facility_id := 1%Z ]> covering ]>
                (Demand.coverage obj))))
  else Ok output_demand.

(** Body of the third loop: the running pair
    [(totalServiceableDemand, totalDemand)]. *)
Definition summary_row (acc : float * float) (e : Demand.t) : float * float :=
  (PrimFloat.add acc.1 (Demand.serviceableDemand e),
   PrimFloat.add acc.2 (Demand.demand e)).

(** The three loops without the log messages between them. *)
Definition build_coverage (rows : list row) (dist_threshold : float)
    (fl_variable_name : string) : result coverage_model :=
  st ← for_each (init_row fl_variable_name) rows ([], ∅, ∅);
  let '(output_demand, set_facility_id, _) := st in
  (* the ids of [set_facility_id], in the order in which the set yields them *)
  let output_facilities : gmap string (list string) :=
    {[ fl_variable_name := elements set_facility_id ]} in
  output_demand ← for_each (cover_row fl_variable_name dist_threshold) rows output_demand;
  let totals := foldl summary_row (PyFloat.zero, PyFloat.zero) (dvalues output_demand) in
  Ok {| version := "1";
        type_mode := "coverage";
        type_type := "binary";
        demand := output_demand;
        totalDemand := totals.2;
        totalServiceableDemand := totals.1;
        facilities := output_facilities |}.

Definition generate_binary_coverage_from_dist_matrix
    (list_dict_facility_demand_distance : list row) (dist_threshold : float)
    (fl_variable_name : option string) : M coverage_model :=
  let fl_variable_name := default "facility" fl_variable_name in
  logging_info "Initializing facilities in output...";;
  st ← lift (for_each (init_row fl_variable_name)
               list_dict_facility_demand_distance ([], ∅, ∅));
  let '(output_demand, set_facility_id, _) := st in
  (* the ids of [set_facility_id], in the order in which the set yields them *)
  let output_facilities : gmap string (list string) :=
    {[ fl_variable_name := elements set_facility_id ]} in
  logging_info "Determining binary coverage for each demand unit...";;
  output_demand ← lift (for_each (cover_row fl_variable_name dist_threshold)
                          list_dict_facility_demand_distance output_demand);
  let totals := foldl summary_row (PyFloat.zero, PyFloat.zero) (dvalues output_demand) in
  logging_info "Binary coverage successfully generated.";;
  mret {| version := "1";
          type_mode := "coverage";
          type_type := "binary";
          demand := output_demand;
          totalDemand := totals.2;
          totalServiceableDemand := totals.1;
          facilities := output_facilities |}.

End CoverageBuilder.

(** The three messages that a complete run of the builder logs. *)
Definition builder_log : list string :=
  [ "Initializing facilities in output...";
    "Determining binary coverage for each demand unit...";
    "Binary coverage successfully generated." ].

(** ** The result summarizer *)

(** Body of the loop over [dict_coverage["demand"].items()]: the key under
    which the coverage set is read is the literal ["facility"]. *)
Definition covered_row (set_facility_id_chosen : gset string)
    (total_demand_covered : float) (item : string * Demand.t) : result float :=
  let '(demand_id, demand_obj) := item in
  covering ← getitem (Demand.coverage demand_obj) "facility";
  if negb (bool_decide (set_facility_id_chosen ## dom covering))
  then Ok (PrimFloat.add total_demand_covered (Demand.demand demand_obj))
  else Ok total_demand_covered.

(** The value of [total_demand_covered] after the loop. *)
Definition total_demand_covered (dict_coverage : coverage_model)
    (set_facility_id_chosen : gset string) : result float :=
  for_each (covered_row set_facility_id_chosen) (demand dict_coverage) PyFloat.zero.

(** Lines 131 to 148: from the coverage object and the chosen ids to the
    returned record. *)
Definition summarize_coverage (dict_coverage : coverage_model)
    (set_facility_id_chosen : gset string) (num_facility : Z) : result result_coverage :=
  covered ← total_demand_covered dict_coverage set_facility_id_chosen;
  percent ← PyFloat.truediv (PrimFloat.mul 100 covered) (totalDemand dict_coverage);
  Ok {| number_facility := num_facility;
        number_facility_chosen := size set_facility_id_chosen;
        set_facility_id_chosen := set_facility_id_chosen;
        total_demand := totalDemand dict_coverage;
        percent_demand_coverage := percent |}.

(** ** Orchestration *)

Definition missing_field_message (field : string) : string :=
  "Error: this field " ++ field ++ " not found in the distance csv".

(** The loop over [list_field_req] against the sample row. *)
Fixpoint check_required_fields (list_field_req : list string)
    (item_pairwise_distance : row) : M unit :=
  match list_field_req with
  | [] => mret tt
  | field :: rest =>
      if decide (field ∉ dom item_pairwise_distance) then
        print (missing_field_message field);;
        sys_exit 0
      else check_required_fields rest item_pairwise_distance
  end.

Section Orchestration.

Variable py_float : string → option float.

(** The external collaborators, as one computation: building the MILP
    from the coverage object ([covering.create_mclp_model]), solving it
    with GLPK ([mclp.solve(pulp.GLPK())], which may write a report to the
    standard output), and reading back the ids of the chosen facilities
    ([utilities.get_ids]).  It may print, log and raise. *)
Variable solve_mclp : coverage_model → Z → string → M (list string).

(** [dict_pairwise_distance] is the list of rows that [csv.DictReader]
    loads from [file_distance_matrix] under [workspace_path]. *)
Definition binary_mclp_distance_matrix (dict_pairwise_distance : list row)
    (service_dist : float) (num_facility : Z) (list_field_req : list string)
    (facility_variable_name : string) : M result_coverage :=
  item_pairwise_distance ← lift (list_getitem dict_pairwise_distance 1);
  check_required_fields list_field_req item_pairwise_distance;;
  dict_coverage ← generate_binary_coverage_from_dist_matrix py_float
    "demand_id" "facility_id" "demand" "distance"
    dict_pairwise_distance service_dist (Some facility_variable_name);
  ids ← solve_mclp dict_coverage num_facility facility_variable_name;
  let set_facility_id_chosen : gset string := list_to_set ids in
  lift (summarize_coverage dict_coverage set_facility_id_chosen num_facility).

End Orchestration.

(** The default value of [list_field_req]. *)
Definition default_list_field_req : list string :=
  ["facility_id"; "demand_id"; "demand"; "distance"].

(** ** Concrete data for the examples *)

Definition mk_row (facility_id demand_id demand_weight distance : string) : row :=
  {[ "facility_id" := facility_id; "demand_id" := demand_id;
     "demand" := demand_weight; "distance" := distance ]}.

Definition example_rows : list row :=
  [ mk_row "F1" "D1" "10" "4000";
    mk_row "F2" "D1" "10" "6000";
    mk_row "F1" "D2" "5" "4000" ].

Definition w0 : world := World [] [].

(** ** Vocabulary of the specification *)

Section Vocabulary.

Variable py_float : string → option float.
Variables (dl_id_field fl_id_field demand_field distance_field : string).
Variable fl_variable_name : string.
Variable dist_threshold : float.

(** The row's distance cell parses and is within the threshold
    ([distance <= threshold], inclusive). *)
Definition within (r : row) : Prop :=
  ∃ cell x, r !! distance_field = Some cell ∧ py_float cell = Some x ∧
            PrimFloat.leb x dist_threshold = true.

(** Some row within the threshold pairs demand id [k] with facility [f]. *)
Definition covered_by (rows : list row) (k f : string) : Prop :=
  ∃ r, r ∈ rows ∧ r !! dl_id_field = Some k ∧ r !! fl_id_field = Some f ∧ within r.

(** Some row within the threshold has demand id [k]. *)
Definition reachable (rows : list row) (k : string) : Prop :=
  ∃ r, r ∈ rows ∧ r !! dl_id_field = Some k ∧ within r.

(** The row at index [i] is the first one whose demand id is [k]. *)
Definition first_row_for (rows : list row) (k : string) (i : nat) (r : row) : Prop :=
  rows !! i = Some r ∧ r !! dl_id_field = Some k ∧
  ∀ j r', j < i → rows !! j = Some r' → r' !! dl_id_field ≠ Some k.

(** A row that carries the four fields, with a demand weight and a
    distance that [float] parses. *)
Definition well_formed_row (r : row) : Prop :=
  is_Some (r !! fl_id_field) ∧ is_Some (r !! dl_id_field) ∧
  (∃ cell x, r !! demand_field = Some cell ∧ py_float cell = Some x) ∧
  (∃ cell x, r !! distance_field = Some cell ∧ py_float cell = Some x).

(** The entry that the first loop stores for a new demand id. *)
Definition fresh_entry (weight : float) : Demand.t :=
  {| Demand.area := 0; Demand.demand := weight;
     Demand.serviceableDemand := PyFloat.zero;
     Demand.coverage := {[ fl_variable_name := ∅ ]} |}.

(** The entry of a demand unit after a row within the threshold pairs it
    with facility [f]. *)
Definition covered_entry (e : Demand.t) (f : string) (cov : gmap string Z) : Demand.t :=
  {| Demand.area := Demand.area e; Demand.demand := Demand.demand e;
     Demand.serviceableDemand := Demand.demand e;
     Demand.coverage := <[ fl_variable_name := <[ f := 1%Z ]> cov ]> (Demand.coverage e) |}.

(** What the second loop over [rows] does to the entry [e] of demand id [k]. *)
Definition entry_after (rows : list row) (k : string) (e e' : Demand.t) : Prop :=
  Demand.area e' = Demand.area e ∧
  Demand.demand e' = Demand.demand e ∧
  ((reachable rows k ∧ Demand.serviceableDemand e' = Demand.demand e) ∨
   (¬ reachable rows k ∧ Demand.serviceableDemand e' = Demand.serviceableDemand e)) ∧
  (∀ n, n ≠ fl_variable_name → Demand.coverage e' !! n = Demand.coverage e !! n) ∧
  (∀ cov, Demand.coverage e !! fl_variable_name = Some cov →
     ∃ cov', Demand.coverage e' !! fl_variable_name = Some cov' ∧
             ∀ f, f ∈ dom cov' ↔ f ∈ dom cov ∨ covered_by rows k f).

End Vocabulary.

(** Facility [f] is in the coverage set of demand unit [d] under the
    variable name [name]: [f in m["demand"][d]["coverage"][name]]. *)
Definition in_coverage (m : coverage_model) (name d f : string) : Prop :=
  ∃ e cov, dget (demand m) d = Some e ∧ Demand.coverage e !! name = Some cov ∧
           f ∈ dom cov.

(** The coverage set that the summarizer reads for a demand unit. *)
Definition coverage_set (e : Demand.t) : gset string :=
  from_option dom ∅ (Demand.coverage e !! "facility").

(** The chosen facilities meet the coverage set of the demand unit. *)
Definition covers_unit (chosen : gset string) (e : Demand.t) : Prop :=
  chosen ∩ coverage_set e ≠ ∅.

#[export] Instance covers_unit_dec chosen e : Decision (covers_unit chosen e).
Proof. unfold covers_unit. apply _. Defined.

(** A floating-point sum, left to right from [0.0]. *)
Definition float_sum (l : list float) : float := foldl PrimFloat.add PyFloat.zero l.

(** The demand weights of the units that the chosen facilities cover, in
    the order of the dictionary. *)
Definition covered_weights (m : coverage_model) (chosen : gset string) : list float :=
  Demand.demand <$> filter (covers_unit chosen) (dvalues (demand m)).

(** ** Binary64 addition and order on non-negative numbers

    The totals are floating-point sums.  What the theorems need of them is
    that adding non-negative numbers is monotone; this is proved from the
    specification of the primitive operations ([SpecFloat]) through the
    exact value of a number, an integer multiple of [2^emin]. *)

Module Binary64.
Local Open Scope Z_scope.

Abbreviation fexp := (SpecFloat.fexp prec emax).
Abbreviation emin := (SpecFloat.emin prec emax).

(** The number of binary digits of an integer. *)
Abbreviation digits := SpecFloat.Zdigits2.

(** The rounded mantissa after dropping [k >= 1] low bits of [m], to nearest,
    ties to even: the round bit is bit [k-1] of [m], the sticky bit says
    whether a lower bit is set. *)
Definition round_bit (k m : Z) : bool := Z.odd (m / 2 ^ (k - 1)).
Definition sticky_bit (k m : Z) : bool := negb (m mod 2 ^ (k - 1) =? 0).
Definition round_up (k m : Z) : bool :=
  round_bit k m && (sticky_bit k m || Z.odd (m / 2 ^ k)).
Definition rnd_at (k m : Z) : Z := m / 2 ^ k + (if round_up k m then 1 else 0).

(** Values are counted in units of [2^emin], the spacing of the subnormal
    numbers: every finite binary64 number is an integer in this unit. *)
Definition dropped (v : Z) : Z := Z.max (digits v - prec) 0.

(** A non-negative value rounded to the binary64 grid (before overflow). *)
Definition rnd (v : Z) : Z :=
  let k := dropped v in
  if k =? 0 then v else rnd_at k v * 2 ^ k.

(** The value that stands for [+infinity]: the first power of two above
    every finite number. *)
Definition INF : Z := 2 ^ (emax - emin).

(** The value of a non-negative number. *)
Definition value (x : spec_float) : Z :=
  match x with
  | S754_zero _ => 0
  | S754_finite false m e => Zpos m * 2 ^ (e - emin)
  | S754_infinity false => INF
  | _ => 0
  end.

(** Zero of either sign, a positive finite number, or [+infinity]. *)
Arguments INF : simpl never.
Arguments value : simpl never.

Definition nonneg (x : spec_float) : bool :=
  match x with
  | S754_zero _ => true
  | S754_finite false _ _ => true
  | S754_infinity false => true
  | _ => false
  end.
End Binary64.

(** ** More concrete data *)

(** The builder with the default field names and the concrete parser. *)
Definition generate_default (rows : list row) (dist_threshold : float) : M coverage_model :=
  generate_binary_coverage_from_dist_matrix PyFloat.of_decimal
    "demand_id" "facility_id" "demand" "distance" rows dist_threshold None.

Definition mk_entry (weight serviceable : float) (covering : list string) : Demand.t :=
  {| Demand.area := 0; Demand.demand := weight;
     Demand.serviceableDemand := serviceable;
     Demand.coverage := {[ "facility" := gset_to_gmap 1%Z (list_to_set covering) ]} |}.

Definition mk_model (entries : odict Demand.t) (total serviceable : float)
    (ids : gset string) : coverage_model :=
  {| version := "1"; type_mode := "coverage"; type_type := "binary";
     demand := entries;
     totalDemand := total; totalServiceableDemand := serviceable;
     facilities := {[ "facility" := elements ids ]} |}.

(** The model that the specification's example expects for [example_rows]. *)
Definition example_model : coverage_model :=
  mk_model [ ("D1", mk_entry 10 10 ["F1"]); ("D2", mk_entry 5 5 ["F1"]) ]
           15 15 {[ "F1"; "F2" ]}.

Definition w1 : world := World [] builder_log.

(** Two rows for the same demand id with different demand weights. *)
Definition duplicate_rows : list row :=
  [ mk_row "F1" "D1" "10" "4000";
    mk_row "F2" "D1" "99" "3000" ].

Definition duplicate_model : coverage_model :=
  mk_model [ ("D1", mk_entry 10 10 ["F1"; "F2"]) ] 10 10 {[ "F1"; "F2" ]}.

(** The model that the builder returns for an empty row list. *)
Definition empty_model : coverage_model := mk_model [] 0 0 ∅.

(** A sample row that lacks the [distance] column. *)
Definition rows_without_distance : list row :=
  [ {[ "facility_id" := "F1"; "demand_id" := "D1"; "demand" := "10" ]};
    {[ "facility_id" := "F2"; "demand_id" := "D1"; "demand" := "10" ]} ].

(** A sample row that lacks both the [demand] and the [distance] column. *)
Definition rows_with_ids_only : list row :=
  [ {[ "facility_id" := "F1"; "demand_id" := "D1" ]};
    {[ "facility_id" := "F2"; "demand_id" := "D1" ]} ].

(** Two rows of one demand unit of weight zero. *)
Definition zero_weight_rows : list row :=
  [ mk_row "F1" "D1" "0" "4000";
    mk_row "F2" "D1" "0" "6000" ].

Definition zero_weight_model : coverage_model :=
  mk_model [ ("D1", mk_entry 0 0 ["F1"]) ] 0 0 {[ "F1"; "F2" ]}.

(** A solver stand-in that chooses the first [num_facility] facility ids
    and prints nothing. *)
Definition first_ids (m : coverage_model) (num_facility : Z) (name : string)
  : M (list string) :=
  mret (take (Z.to_nat num_facility) (default [] (facilities m !! name))).

(** A demand unit of negative weight, out of reach of the only facility. *)
Definition negative_rows : list row := [ mk_row "F1" "D1" "-5" "6000" ].

(** A demand unit of weight zero, out of reach of the only facility. *)
Definition zero_rows : list row := [ mk_row "F1" "D1" "0" "6000" ].

(** A demand unit of weight [2^53] within reach and one of weight [1] out
    of reach: [2^53 + 1] rounds to [2^53]. *)
Definition absorbed_rows : list row :=
  [ mk_row "F1" "D1" "9007199254740992" "4000";
    mk_row "F1" "D2" "1" "6000" ].

(** The view of a demand entry that the worked example lists: weight,
    serviceable demand and the ids in the coverage set under ["facility"]. *)
Definition entry_view (item : string * Demand.t) : string * float * float * list string :=
  (item.1, Demand.demand item.2, Demand.serviceableDemand item.2,
   elements (coverage_set item.2)).

(** A row without a facility id, and a row whose distance is not a number. *)
Definition row_without_facility : row :=
  {[ "demand_id" := "D2"; "demand" := "5"; "distance" := "4000" ]}.

Definition row_with_bad_distance : row := mk_row "F2" "D2" "5" "far".

(** A later row of a known demand id, with no distance and no weight. *)
Definition later_row_without_distance : row :=
  {[ "facility_id" := "F3"; "demand_id" := "D1" ]}.

(** The model of [example_rows] for the threshold [6000]: [F2] reaches [D1]. *)
Definition wide_model : coverage_model :=
  mk_model [ ("D1", mk_entry 10 10 ["F1"; "F2"]); ("D2", mk_entry 5 5 ["F1"]) ]
           15 15 {[ "F1"; "F2" ]}.

(** The record of a run on [example_rows] in which the solver stand-in
    chooses [F1]. *)
Definition example_record : result_coverage :=
  {| number_facility := 1; number_facility_chosen := 1;
     set_facility_id_chosen := {[ "F1" ]};
     total_demand := 15; percent_demand_coverage := 100 |}.

(** ** Further vocabulary *)

Section MoreVocabulary.

Variable py_float : string → option float.
Variables (dl_id_field fl_id_field demand_field distance_field : string).

(** The rows on which the builder runs to its end: every row carries a
    facility id, a demand id and a distance that parses, and the first row
    of every demand id carries a weight that parses. *)
Definition builder_accepts (rows : list row) : Prop :=
  ∀ i r, rows !! i = Some r →
    is_Some (r !! fl_id_field) ∧
    (∃ k, r !! dl_id_field = Some k ∧
          (first_row_for dl_id_field rows k i r →
           ∃ cell x, r !! demand_field = Some cell ∧ py_float cell = Some x)) ∧
    (∃ cell x, r !! distance_field = Some cell ∧ py_float cell = Some x).

(** The rows on which the first loop runs to its end: every row carries
    a facility id and a demand id, and the first row of every demand id
    carries a weight that parses.  Nothing is asked of the distances. *)
Definition first_loop_accepts (rows : list row) : Prop :=
  ∀ i r, rows !! i = Some r →
    is_Some (r !! fl_id_field) ∧
    ∃ k, r !! dl_id_field = Some k ∧
         (first_row_for dl_id_field rows k i r →
          ∃ cell x, r !! demand_field = Some cell ∧ py_float cell = Some x).

(** The row carries a distance that parses. *)
Definition distance_parses (r : row) : Prop :=
  ∃ cell x, r !! distance_field = Some cell ∧ py_float cell = Some x.

End MoreVocabulary.

(** The world after the first, and after the second, log message of the
    builder. *)
Definition logged_first (w : world) : world :=
  World (stdout w) (log w ++ ["Initializing facilities in output..."]).

Definition logged_second (w : world) : world :=
  World (stdout w)
    (log w ++ ["Initializing facilities in output...";
               "Determining binary coverage for each demand unit..."]).

(** ** The order of binary64 numbers of either sign *)

Module Binary64Signed.
Import Binary64.
Local Open Scope Z_scope.

(** The signed value of a number, in units of [2^emin]; the infinities
    stand at [INF] and [-INF]. *)
Definition signed_value (x : spec_float) : Z :=
  match x with
  | S754_zero _ => 0
  | S754_infinity s => if s then - INF else INF
  | S754_nan => 0
  | S754_finite s m e => if s then - value (S754_finite false m e)
                         else value (S754_finite false m e)
  end.

Definition is_number (x : spec_float) : bool :=
  match x with
  | S754_nan => false
  | _ => true
  end.
End Binary64Signed.

(** ** Sums that do not round *)

(** [x] is the non-negative number of [n] units of [2^j * 2^emin], where
    [emin = -1074]: for [j = 1074] the unit is [1] and [x] is the whole
    number [n]; for [j = 1073] the unit is one half. *)
Definition in_units (j : Z) (x : float) (n : Z) : Prop :=
  Binary64.nonneg (Prim2SF x) = true ∧ Binary64.value (Prim2SF x) = (n * 2 ^ j)%Z.

(** The exact sum of the weights [weight_of d] of the demand ids [keys]. *)
Definition total_weight (weight_of : string → Z) (keys : list string) : Z :=
  foldr (λ d s, weight_of d + s)%Z 0%Z keys.

(** ** A weight that is not a number *)

(** Python's [float] also reads the literal [nan]. *)
Definition of_decimal_or_nan (s : string) : option float :=
  if decide (s = "nan") then Some PrimFloat.nan else PyFloat.of_decimal s.

(** One demand unit whose weight is not a number, within reach. *)
Definition nan_rows : list row := [ mk_row "F1" "D1" "nan" "4000" ].

(** * Facts about the embedding *)

(** ** Insertion-ordered dictionaries *)

Section odict_facts.
Context {V : Type}.
Implicit Types (d : odict V) (k : string) (v : V).

Lemma dget_dset_eq d k v : dget (dset d k v) k = Some v.
Proof.
  induction d as [|[k' v'] d IH]; simpl.
  - by rewrite decide_True.
  - destruct (decide (k' = k)) as [->|Hne]; simpl.
    + by rewrite decide_True.
    + by rewrite decide_False.
Qed.

Lemma dget_dset_ne d k k' v : k ≠ k' → dget (dset d k v) k' = dget d k'.
Proof.
  intros Hne. induction d as [|[k0 v0] d IH]; simpl.
  - by rewrite decide_False.
  - destruct (decide (k0 = k)) as [->|Hk0]; simpl.
    + by rewrite !decide_False.
    + by rewrite IH.
Qed.

Lemma dget_dset d k k' v :
  dget (dset d k v) k' = if decide (k = k') then Some v else dget d k'.
Proof.
  case_decide as Hk; [subst; apply dget_dset_eq | by apply dget_dset_ne].
Qed.

Lemma elem_of_dkeys d k : k ∈ dkeys d ↔ is_Some (dget d k).
Proof.
  unfold dkeys. induction d as [|[k' v'] d IH]; simpl.
  - split; [by intros ?%elem_of_nil | by intros [? ?]].
  - rewrite elem_of_cons, IH. case_decide as Hk.
    + split; [by eexists | by left].
    + split; [by intros [?|?] | by right].
Qed.

Lemma dget_None_dkeys d k : dget d k = None ↔ k ∉ dkeys d.
Proof. rewrite elem_of_dkeys, eq_None_not_Some. done. Qed.

Lemma dkeys_dset_Some d k v :
  is_Some (dget d k) → dkeys (dset d k v) = dkeys d.
Proof.
  unfold dkeys. induction d as [|[k' v'] d IH]; simpl.
  - by intros [? ?].
  - case_decide; simpl; [by subst | intros; f_equal; auto].
Qed.

Lemma dkeys_dset_None d k v :
  dget d k = None → dkeys (dset d k v) = (dkeys d ++ [k])%list.
Proof.
  unfold dkeys. induction d as [|[k' v'] d IH]; simpl; [done|].
  case_decide; simpl; [done | intros; f_equal; auto].
Qed.

Lemma NoDup_dkeys_dset d k v : NoDup (dkeys d) → NoDup (dkeys (dset d k v)).
Proof.
  intros Hnd. destruct (dget d k) eqn:Hk.
  - by rewrite dkeys_dset_Some.
  - rewrite dkeys_dset_None by done.
    apply NoDup_app. split_and!; [done | | apply NoDup_singleton].
    intros x Hx ->%list_elem_of_singleton. by apply dget_None_dkeys in Hk.
Qed.

Lemma dget_Some_elem_of d k v : dget d k = Some v → (k, v) ∈ d.
Proof.
  induction d as [|[k' v'] d IH]; simpl; [done|].
  case_decide; [intros [= ->]; subst; left | right; auto].
Qed.

Lemma elem_of_dget d k v : (k, v) ∈ d → ∃ v', dget d k = Some v'.
Proof.
  intros Hin. apply (elem_of_dkeys d k). unfold dkeys.
  apply list_elem_of_fmap. by exists (k, v).
Qed.

Lemma dvalues_elem_of d v : v ∈ dvalues d → ∃ k, (k, v) ∈ d.
Proof.
  unfold dvalues. intros ([k v'] & -> & Hin)%list_elem_of_fmap. by exists k.
Qed.
Lemma elem_of_dget_NoDup d k v : NoDup (dkeys d) → (k, v) ∈ d → dget d k = Some v.
Proof.
  unfold dkeys. induction d as [|[k' v'] d IH]; simpl; [by intros _ ?%elem_of_nil|].
  intros [Hk' Hnd]%NoDup_cons [[= -> ->]|Hin]%elem_of_cons.
  - by rewrite decide_True.
  - rewrite decide_False; [by apply IH|].
    intros ->. apply Hk'. apply list_elem_of_fmap. by exists (k, v).
Qed.

Lemma dset_dset d k v v' : dset (dset d k v) k v' = dset d k v'.
Proof.
  induction d as [|[k0 v0] d IH]; simpl.
  - by rewrite decide_True.
  - destruct (decide (k0 = k)) as [->|Hne]; simpl.
    + by rewrite decide_True.
    + by rewrite decide_False, IH.
Qed.
End odict_facts.

(** ** Inversion of the error monad *)

Lemma bind_Ok {A B : Type} (r : result A) (k : A → result B) (b : B) :
  (r ≫= k) = Ok b ↔ ∃ a, r = Ok a ∧ k a = Ok b.
Proof.
  destruct r as [a|e]; simpl; split.
  - intros H. by exists a.
  - by intros (a' & [= ->] & H).
  - intros H. discriminate H.
  - by intros (a' & H & _).
Qed.

Lemma getitem_Ok {V : Type} (m : gmap string V) (k : string) (v : V) :
  getitem m k = Ok v ↔ m !! k = Some v.
Proof. unfold getitem. destruct (m !! k); split; congruence. Qed.

Lemma dgetitem_Ok {V : Type} (d : odict V) (k : string) (v : V) :
  dgetitem d k = Ok v ↔ dget d k = Some v.
Proof. unfold dgetitem. destruct (dget d k); split; congruence. Qed.

Ltac inv_result :=
  repeat match goal with
    | H : (_ ≫= _) = Ok _ |- _ =>
        apply bind_Ok in H; destruct H as (? & ? & H)
    | H : getitem _ _ = Ok _ |- _ => apply getitem_Ok in H
    | H : dgetitem _ _ = Ok _ |- _ => apply dgetitem_Ok in H
    | H : Ok _ = Ok _ |- _ => injection H as H
    | H : Raise _ = Ok _ |- _ => discriminate H
    end.

(** ** The loops of the coverage builder *)

Section BuilderFacts.
Variable py_float : string → option float.
Variables (dl_id_field fl_id_field demand_field distance_field : string).
Variable fl_variable_name : string.
Variable dist_threshold : float.

Abbreviation init_row := (init_row py_float dl_id_field fl_id_field demand_field fl_variable_name).
Abbreviation cover_row := (cover_row py_float dl_id_field fl_id_field distance_field fl_variable_name dist_threshold).
Abbreviation within := (within py_float distance_field dist_threshold).
Abbreviation covered_by := (covered_by py_float dl_id_field fl_id_field distance_field dist_threshold).
Abbreviation reachable := (reachable py_float dl_id_field distance_field dist_threshold).
Abbreviation first_row_for := (first_row_for dl_id_field).
Abbreviation fresh_entry := (fresh_entry fl_variable_name).
Abbreviation covered_entry := (covered_entry fl_variable_name).
Abbreviation entry_after :=
  (entry_after py_float dl_id_field fl_id_field distance_field fl_variable_name dist_threshold).

Lemma float_of_Ok s x : float_of py_float s = Ok x ↔ py_float s = Some x.
Proof. unfold float_of. destruct (py_float s); split; congruence. Qed.

Lemma init_row_inv d sf sd r st' :
  init_row (d, sf, sd) r = Ok st' →
  ∃ f k, r !! fl_id_field = Some f ∧ r !! dl_id_field = Some k ∧
    ((k ∈ sd ∧ st' = (d, (sf ∪ {[f]}), sd)) ∨
     ((k ∉ sd) ∧ ∃ cell w, r !! demand_field = Some cell ∧ py_float cell = Some w ∧
        st' = (dset d k (fresh_entry w), (sf ∪ {[f]}), (sd ∪ {[k]})))).
Proof.
  unfold init_row. intros H. inv_result.
  rename x into f, x0 into k. exists f, k. split_and!; [done..|].
  case_decide as Hk.
  - right. inv_result. split; [done|].
    match goal with Hf : float_of _ _ = Ok _ |- _ => apply float_of_Ok in Hf end.
    eexists _, _. split_and!; [done..|]. by subst.
  - left. inv_result. by subst.
Qed.

Lemma init_rows_inv rows d sf sd d' sf' sd' :
  for_each init_row rows (d, sf, sd) = Ok (d', sf', sd') →
  (∀ k, k ∈ sd ↔ k ∈ dkeys d) →
  (∀ k, k ∈ sd' ↔ k ∈ dkeys d') ∧
  (∀ k, k ∈ dkeys d' ↔ k ∈ dkeys d ∨ ∃ r, r ∈ rows ∧ r !! dl_id_field = Some k) ∧
  (∀ k, k ∈ dkeys d → dget d' k = dget d k) ∧
  (∀ k e, k ∉ dkeys d → dget d' k = Some e →
     ∃ i r cell w, first_row_for rows k i r ∧ r !! demand_field = Some cell ∧
                   py_float cell = Some w ∧ e = fresh_entry w) ∧
  (∀ r, r ∈ rows → is_Some (r !! fl_id_field) ∧ is_Some (r !! dl_id_field)).
Proof.
  revert d sf sd. induction rows as [|r rows IH]; intros d sf sd Hrun Hsd.
  - simpl in Hrun. injection Hrun as -> -> ->. split_and!; try done.
    + intros k. split; [by left|]. intros [?|(r & ?%elem_of_nil & _)]; done.
    + intros k e Hk He. apply mk_is_Some, elem_of_dkeys in He. done.
    + by intros r ?%elem_of_nil.
  - simpl in Hrun. apply bind_Ok in Hrun as ([[d1 sf1] sd1] & Hrow & Hrest).
    apply init_row_inv in Hrow as (f & k0 & Hf & Hk0 & Hcase).
    assert (Hsd1 : ∀ k, k ∈ sd1 ↔ k ∈ dkeys d1).
    { destruct Hcase as [(Hin & [= -> -> ->])|(Hnin & cell & w & _ & _ & [= -> -> ->])]; [done|].
      intros k. rewrite elem_of_union, elem_of_singleton, Hsd.
      rewrite dkeys_dset_None by (apply dget_None_dkeys; by rewrite <-Hsd).
      rewrite elem_of_app, list_elem_of_singleton. done. }
    destruct (IH _ _ _ Hrest Hsd1) as (I1 & I2 & I3 & I4 & I5).
    assert (Hkeys1 : ∀ k, k ∈ dkeys d1 ↔ k ∈ dkeys d ∨ k = k0).
    { intros k. rewrite <-Hsd1, <-Hsd.
      destruct Hcase as [(Hin & [= -> -> ->])|(Hnin & cell & w & _ & _ & [= -> -> ->])].
      - split; [by left | intros [?| ->]; done].
      - by rewrite elem_of_union, elem_of_singleton. }
    split_and!; [done | | | |].
    + intros k. rewrite I2, Hkeys1. split.
      * intros [[?| ->]|(r' & Hr' & Hk)]; [by left | |].
        -- right. exists r. split; [left | done].
        -- right. exists r'. split; [by right | done].
      * intros [?|(r' & [->|Hr']%elem_of_cons & Hk)].
        -- left. by left.
        -- left. right. congruence.
        -- right. by exists r'.
    + intros k Hk. rewrite I3 by (apply Hkeys1; by left).
      destruct Hcase as [(Hin & [= -> -> ->])|(Hnin & cell & w & _ & _ & [= -> -> ->])]; [done|].
      apply dget_dset_ne. intros ->. by apply Hnin, Hsd.
    + intros k e Hk He. destruct (decide (k = k0)) as [->|Hne].
      * destruct Hcase as [(Hin & _)|(Hnin & cell & w & Hcell & Hw & [= -> -> ->])];
          [by apply Hsd in Hin|].
        rewrite I3 in He by (apply Hkeys1; by right).
        rewrite dget_dset_eq in He. injection He as <-.
        exists 0, r, cell, w. unfold first_row_for. split_and!; [done | done | | done..].
        intros j r' Hj. lia.
      * assert (Hk1 : k ∉ dkeys d1) by (rewrite Hkeys1; intros [?|?]; done).
        destruct (I4 k e Hk1 He) as (i & r' & cell & w & (Hi & Hdl & Hfirst) & Hcell & Hw & ->).
        exists (S i), r', cell, w. unfold first_row_for. split_and!; [done | done | | done..].
        intros [|j] r'' Hj; simpl.
        -- intros [= <-]. congruence.
        -- intros Hj'. eapply Hfirst; [|done]. lia.
    + intros r' [->|Hr']%elem_of_cons; [by rewrite Hf, Hk0 | by apply I5].
Qed.

Lemma cover_row_inv d r d' :
  cover_row d r = Ok d' →
  (¬ within r ∧ d' = d) ∨
  (within r ∧ ∃ k f e cov,
     r !! dl_id_field = Some k ∧ r !! fl_id_field = Some f ∧
     dget d k = Some e ∧ Demand.coverage e !! fl_variable_name = Some cov ∧
     d' = dset d k (covered_entry e f cov)).
Proof.
  unfold cover_row. intros H.
  apply bind_Ok in H as (cell & Hcell%getitem_Ok & H).
  apply bind_Ok in H as (dist & Hdist%float_of_Ok & H).
  destruct (PrimFloat.leb dist dist_threshold) eqn:Hle.
  - right. split; [by exists cell, dist|].
    apply bind_Ok in H as (k & Hk%getitem_Ok & H).
    apply bind_Ok in H as (src & Hsrc%dgetitem_Ok & H).
    apply bind_Ok in H as (k1 & Hk1%getitem_Ok & H).
    apply bind_Ok in H as (dst & Hdst%dgetitem_Ok & H).
    apply bind_Ok in H as (k2 & Hk2%getitem_Ok & H).
    apply bind_Ok in H as (obj & Hobj%dgetitem_Ok & H).
    apply bind_Ok in H as (cov & Hcov%getitem_Ok & H).
    apply bind_Ok in H as (f & Hf%getitem_Ok & H).
    assert (k1 = k) as -> by congruence. assert (k2 = k) as -> by congruence.
    assert (dst = src) as -> by congruence.
    rewrite dget_dset_eq in Hobj. injection Hobj as <-.
    injection H as <-. rewrite dset_dset.
    exists k, f, src, cov. by split_and!.
  - left. injection H as <-. split; [|done].
    intros (cell' & x & Hcell' & Hx & Hx'). congruence.
Qed.

Lemma entry_after_nil k e : entry_after [] k e e.
Proof.
  unfold entry_after. split_and!; [done | done | | done |].
  - right. split; [|done]. by intros (r & ?%elem_of_nil & _).
  - intros cov Hcov. exists cov. split; [done|]. intros f. split; [by left|].
    by intros [?|(r & ?%elem_of_nil & _)].
Qed.

Lemma entry_after_skip r rows k e e' :
  ¬ (r !! dl_id_field = Some k ∧ within r) →
  entry_after rows k e e' → entry_after (r :: rows) k e e'.
Proof.
  intros Hr (Ha & Hd & Hs & Hn & Hc). unfold entry_after.
  assert (Hreach : reachable (r :: rows) k ↔ reachable rows k).
  { split.
    - intros (r' & [->|Hin]%elem_of_cons & Hk & Hw); [by destruct Hr | by exists r'].
    - intros (r' & Hin & Hk & Hw). exists r'. split; [by right | done]. }
  split_and!; [done | done | by rewrite Hreach | done |].
  intros cov Hcov. destruct (Hc cov Hcov) as (cov' & Hcov' & Hdom).
  exists cov'. split; [done|]. intros f. rewrite Hdom. split.
  - intros [?|(r' & Hin & Hk & Hf & Hw)]; [by left|].
    right. exists r'. split; [by right | done].
  - intros [?|(r' & [->|Hin]%elem_of_cons & Hk & Hf & Hw)];
      [by left | by destruct Hr | right; by exists r'].
Qed.

Lemma entry_after_hit r rows k f e cov e' :
  r !! dl_id_field = Some k → r !! fl_id_field = Some f → within r →
  Demand.coverage e !! fl_variable_name = Some cov →
  entry_after rows k (covered_entry e f cov) e' → entry_after (r :: rows) k e e'.
Proof.
  intros Hk Hf Hw Hcov (Ha & Hd & Hs & Hn & Hc). unfold entry_after. simpl in *.
  split_and!; [done | done | | |].
  - left. split; [exists r; split; [left | done]|].
    by destruct Hs as [[_ ->]|[_ ->]].
  - intros n Hne. by rewrite Hn, lookup_insert_ne.
  - intros cov0 Hcov0. assert (cov0 = cov) as -> by congruence.
    destruct (Hc (<[f:=1%Z]> cov)) as (cov' & Hcov' & Hdom);
      [by rewrite lookup_insert_eq|].
    exists cov'. split; [done|]. intros f'.
    rewrite Hdom, dom_insert, elem_of_union, elem_of_singleton. split.
    + intros [[->|?]|(r' & Hin & ?)].
      * right. exists r. split; [left | done].
      * by left.
      * right. exists r'. split; [by right | done].
    + intros [?|(r' & [->|Hin]%elem_of_cons & Hk' & Hf' & Hw')].
      * left. by right.
      * left. left. congruence.
      * right. by exists r'.
Qed.

Lemma cover_rows_inv rows d d' :
  for_each cover_row rows d = Ok d' →
  dkeys d' = dkeys d ∧
  ∀ k e, dget d k = Some e → ∃ e', dget d' k = Some e' ∧ entry_after rows k e e'.
Proof.
  revert d. induction rows as [|r rows IH]; intros d Hrun; simpl in Hrun.
  - injection Hrun as <-. split; [done|]. intros k e He. exists e.
    split; [done | apply entry_after_nil].
  - apply bind_Ok in Hrun as (d1 & Hrow & Hrest).
    destruct (IH _ Hrest) as [Hkeys IHe].
    apply cover_row_inv in Hrow as [[Hnw ->]|(Hw & k0 & f & e0 & cov & Hk0 & Hf & He0 & Hcov & ->)].
    + split; [done|]. intros k e He. destruct (IHe k e He) as (e' & He' & Hafter).
      exists e'. split; [done|]. apply entry_after_skip; [|done]. by intros [_ ?].
    + split; [by rewrite Hkeys, dkeys_dset_Some|].
      intros k e He. destruct (decide (k0 = k)) as [->|Hne].
      * assert (e0 = e) as -> by congruence.
        destruct (IHe k (covered_entry e f cov)) as (e' & He' & Hafter);
          [apply dget_dset_eq|].
        exists e'. split; [done|]. by eapply entry_after_hit.
      * destruct (IHe k e) as (e' & He' & Hafter); [by rewrite dget_dset_ne|].
        exists e'. split; [done|]. apply entry_after_skip; [|done].
        intros [? _]. congruence.
Qed.
End BuilderFacts.

(** ** Binary64: rounding, order and addition *)

Module Binary64Facts.
Import Binary64.
Local Open Scope Z_scope.

(** ** Digits *)

Lemma digits_pos_bounds (p : positive) :
  2 ^ (Zpos (digits2_pos p) - 1) ≤ Zpos p < 2 ^ Zpos (digits2_pos p).
Proof.
  induction p as [p IH|p IH|]; simpl digits2_pos.
  - rewrite Pos2Z.inj_succ, Z.pow_succ_r by lia.
    replace (Z.succ (Zpos (digits2_pos p)) - 1) with (Z.succ (Zpos (digits2_pos p) - 1)) by lia.
    rewrite Z.pow_succ_r by lia. lia.
  - rewrite Pos2Z.inj_succ, Z.pow_succ_r by lia.
    replace (Z.succ (Zpos (digits2_pos p)) - 1) with (Z.succ (Zpos (digits2_pos p) - 1)) by lia.
    rewrite Z.pow_succ_r by lia. lia.
  - simpl. lia.
Qed.

Lemma digits_bounds (v : Z) : 0 < v → 2 ^ (digits v - 1) ≤ v < 2 ^ digits v.
Proof. destruct v as [|p|p]; [lia | intros _; apply digits_pos_bounds | lia]. Qed.

Lemma digits_positive (v : Z) : 0 < v → 0 < digits v.
Proof. destruct v; simpl; lia. Qed.

Lemma digits_unique (v k : Z) : 2 ^ (k - 1) ≤ v < 2 ^ k → 0 < v → digits v = k.
Proof.
  intros Hk Hv. pose proof (digits_bounds v Hv) as Hd.
  pose proof (digits_positive v Hv) as Hp.
  destruct (Z.lt_trichotomy (digits v) k) as [Hlt|[?|Hlt]]; [|done|].
  - assert (2 ^ digits v ≤ 2 ^ (k - 1)) by (apply Z.pow_le_mono_r; lia). lia.
  - assert (0 ≤ k).
    { destruct (Z.le_gt_cases 0 k); [done|].
      rewrite (Z.pow_neg_r 2 k) in Hk by lia. lia. }
    assert (2 ^ k ≤ 2 ^ (digits v - 1)) by (apply Z.pow_le_mono_r; lia). lia.
Qed.

Lemma digits_mono (v1 v2 : Z) : 0 < v1 ≤ v2 → digits v1 ≤ digits v2.
Proof.
  intros Hv. pose proof (digits_bounds v1) as H1. pose proof (digits_bounds v2) as H2.
  pose proof (digits_positive v1). pose proof (digits_positive v2).
  destruct (Z.le_gt_cases (digits v1) (digits v2)) as [?|Hgt]; [done|].
  assert (2 ^ digits v2 ≤ 2 ^ (digits v1 - 1)) by (apply Z.pow_le_mono_r; lia). lia.
Qed.

Lemma digits_mul_pow2 (v j : Z) : 0 < v → 0 ≤ j → digits (v * 2 ^ j) = digits v + j.
Proof.
  intros Hv Hj. pose proof (digits_bounds v Hv) as Hd.
  pose proof (digits_positive v Hv) as Hp.
  assert (0 < 2 ^ j) by (apply Z.pow_pos_nonneg; lia).
  apply digits_unique; [|nia].
  replace (digits v + j - 1) with ((digits v - 1) + j) by lia.
  rewrite !Z.pow_add_r by lia. nia.
Qed.

(** ** Shifting right with a round and a sticky bit *)

Lemma shr_1_nonneg (m : Z) (r s : bool) :
  0 ≤ m → shr_1 (Build_shr_record m r s) = Build_shr_record (m / 2) (Z.odd m) (r || s).
Proof.
  intros Hm. rewrite <-Z.div2_div.
  destruct m as [|[p|p|]|p]; simpl; try done; lia.
Qed.

Lemma iter_pos_nat {A : Type} (f : A → A) (n : positive) (x : A) :
  SpecFloat.iter_pos f n x = Nat.iter (Pos.to_nat n) f x.
Proof.
  revert x. induction n as [n IH|n IH|]; intros x; simpl SpecFloat.iter_pos.
  - rewrite !IH, Pos2Nat.inj_xI.
    replace (S (2 * Pos.to_nat n))%nat with (Pos.to_nat n + (Pos.to_nat n + 1))%nat by lia.
    rewrite !Nat.iter_add. done.
  - rewrite !IH, Pos2Nat.inj_xO.
    replace (2 * Pos.to_nat n)%nat with (Pos.to_nat n + Pos.to_nat n)%nat by lia.
    rewrite Nat.iter_add. done.
  - done.
Qed.

Lemma sticky_bit_succ (k m : Z) :
  1 ≤ k → round_bit k m || sticky_bit k m = sticky_bit (k + 1) m.
Proof.
  intros Hk. unfold round_bit, sticky_bit.
  replace (k + 1 - 1) with (Z.succ (k - 1)) by lia.
  rewrite Z.pow_succ_r by lia.
  assert (0 < 2 ^ (k - 1)) as Hpos by (apply Z.pow_pos_nonneg; lia).
  rewrite (Z.mul_comm 2), Z.rem_mul_r by lia.
  pose proof (Z.mod_pos_bound m (2 ^ (k - 1)) Hpos) as Hlow.
  rewrite Zmod_odd.
  destruct (Z.odd (m / 2 ^ (k - 1))); simpl.
  - symmetry. apply negb_true_iff, Z.eqb_neq. lia.
  - by rewrite Z.mul_0_r, Z.add_0_r.
Qed.

Lemma iter_shr_1 (k : nat) (m : Z) (r s : bool) :
  0 ≤ m →
  Nat.iter (S k) shr_1 (Build_shr_record m r s) =
    Build_shr_record (m / 2 ^ Z.of_nat (S k)) (round_bit (Z.of_nat (S k)) m)
      (r || s || sticky_bit (Z.of_nat (S k)) m).
Proof.
  intros Hm. induction k as [|k IH].
  - change (Nat.iter 1 shr_1 ?x) with (shr_1 x). rewrite shr_1_nonneg by done.
    unfold round_bit, sticky_bit. simpl. rewrite Z.div_1_r, Z.mod_1_r. simpl.
    by rewrite orb_false_r.
  - change (Nat.iter (S (S k)) shr_1 ?x) with (shr_1 (Nat.iter (S k) shr_1 x)).
    rewrite IH, shr_1_nonneg by (apply Z.div_pos; [done | apply Z.pow_pos_nonneg; lia]).
    assert (0 < 2 ^ Z.of_nat (S k)) by (apply Z.pow_pos_nonneg; lia).
    f_equal.
    + rewrite Z.div_div by lia.
      rewrite (Nat2Z.inj_succ (S k)), Z.pow_succ_r by lia. f_equal. lia.
    + unfold round_bit. f_equal. f_equal. f_equal. lia.
    + replace (Z.of_nat (S (S k))) with (Z.of_nat (S k) + 1) by lia.
      rewrite <-(sticky_bit_succ (Z.of_nat (S k))) by lia.
      destruct r, s, (round_bit _ _), (sticky_bit _ _); done.
Qed.

Lemma shr_exact (m e n : Z) :
  0 ≤ m → 0 < n →
  shr (Build_shr_record m false false) e n =
    (Build_shr_record (m / 2 ^ n) (round_bit n m) (sticky_bit n m), e + n).
Proof.
  intros Hm Hn. destruct n as [|p|p]; [lia| |lia]. unfold shr.
  rewrite iter_pos_nat.
  destruct (Pos.to_nat p) as [|k] eqn:Hk; [lia|].
  rewrite iter_shr_1 by done. rewrite <-Hk, positive_nat_Z. done.
Qed.

Lemma round_nearest_even_shr (q : Z) (r s : bool) :
  round_nearest_even q (loc_of_shr_record (Build_shr_record q r s)) =
    q + (if r && (s || Z.odd q) then 1 else 0).
Proof.
  unfold round_nearest_even, loc_of_shr_record. rewrite <-Z.negb_even.
  destruct r, s, (Z.even q); simpl; lia.
Qed.

(** ** The rounded mantissa *)

Lemma pow2_pos (k : Z) : 0 ≤ k → 0 < 2 ^ k.
Proof. intros. apply Z.pow_pos_nonneg; lia. Qed.

Lemma rnd_at_scale (k j m : Z) :
  1 ≤ k → 0 ≤ j → rnd_at (k + j) (m * 2 ^ j) = rnd_at k m.
Proof.
  intros Hk Hj. pose proof (pow2_pos j Hj). pose proof (pow2_pos (k - 1) ltac:(lia)).
  pose proof (pow2_pos k ltac:(lia)).
  unfold rnd_at, round_up, round_bit, sticky_bit.
  replace (k + j - 1) with ((k - 1) + j) by lia.
  rewrite !Z.pow_add_r by lia.
  rewrite !Z.div_mul_cancel_r by lia.
  rewrite Z.mul_mod_distr_r by lia.
  replace (m mod 2 ^ (k - 1) * 2 ^ j =? 0) with (m mod 2 ^ (k - 1) =? 0); [done|].
  destruct (Z.eqb_spec (m mod 2 ^ (k - 1)) 0) as [->|Hne]; symmetry.
  - by apply Z.eqb_eq.
  - apply Z.eqb_neq. nia.
Qed.

Lemma rnd_at_exact (j m : Z) : 1 ≤ j → rnd_at j (m * 2 ^ j) = m.
Proof.
  intros Hj. pose proof (pow2_pos (j - 1) ltac:(lia)). pose proof (pow2_pos j ltac:(lia)).
  unfold rnd_at, round_up, round_bit.
  rewrite Z.div_mul by lia.
  replace (2 ^ j) with (2 * 2 ^ (j - 1)).
  2:{ rewrite <-Z.pow_succ_r by lia. f_equal. lia. }
  rewrite Z.mul_assoc, Z.div_mul by lia.
  rewrite Z.odd_mul, andb_false_r. simpl. lia.
Qed.

Lemma rnd_at_bounds (k m : Z) :
  1 ≤ k → 0 ≤ m → m / 2 ^ k ≤ rnd_at k m ≤ m / 2 ^ k + 1.
Proof. intros. unfold rnd_at. destruct (round_up k m); lia. Qed.

(** ** Rounding a positive integer mantissa at exponent [e] *)

Lemma fexp_eq (x : Z) : fexp x = Z.max (x - 53) (-1074).
Proof. reflexivity. Qed.

Lemma shr_zero (mrs : shr_record) (e : Z) : shr mrs e 0 = (mrs, e).
Proof. reflexivity. Qed.

(** A mantissa that is already canonical is kept as it is. *)
Lemma binary_round_aux_canonical (m : positive) (e : Z) :
  fexp (digits (Zpos m) + e) = e →
  binary_round_aux prec emax false (Zpos m) e loc_Exact =
    if e <=? emax - prec then S754_finite false m e else S754_infinity false.
Proof.
  intros Hcan. unfold binary_round_aux, shr_fexp.
  rewrite Hcan, Z.sub_diag. simpl shr_record_of_loc. rewrite shr_zero.
  simpl loc_of_shr_record. simpl round_nearest_even. simpl shr_m at 1.
  rewrite Hcan, Z.sub_diag, shr_zero. done.
Qed.

(** A mantissa with more than [prec] digits loses its [n] low bits. *)
Lemma binary_round_aux_shift (m : positive) (e n : Z) :
  emin ≤ e → 0 < n → n = digits (Zpos m) - prec →
  binary_round_aux prec emax false (Zpos m) e loc_Exact =
    let m1 := rnd_at n (Zpos m) in
    if m1 =? 2 ^ prec
    then (if e + n + 1 <=? emax - prec
          then S754_finite false (Z.to_pos (2 ^ (prec - 1))) (e + n + 1)
          else S754_infinity false)
    else (if e + n <=? emax - prec
          then S754_finite false (Z.to_pos m1) (e + n)
          else S754_infinity false).
Proof.
  change emin with (-1074). change prec with 53. change emax with 1024.
  intros He Hn Hd.
  pose proof (digits_bounds (Zpos m) ltac:(lia)) as Hm.
  pose proof (pow2_pos n ltac:(lia)) as Hpn.
  assert (2 ^ digits (Zpos m) = 2 ^ 53 * 2 ^ n) as Hsplit.
  { rewrite <-Z.pow_add_r by lia. f_equal. lia. }
  assert (2 ^ (digits (Zpos m) - 1) = 2 ^ 52 * 2 ^ n) as Hsplit'.
  { rewrite <-Z.pow_add_r by lia. f_equal. lia. }
  assert (2 ^ 52 ≤ Zpos m / 2 ^ n < 2 ^ 53) as Hq.
  { split.
    - apply Z.div_le_lower_bound; lia.
    - apply Z.div_lt_upper_bound; lia. }
  pose proof (rnd_at_bounds n (Zpos m) ltac:(lia) ltac:(lia)) as Hm1.
  unfold binary_round_aux, shr_fexp. rewrite fexp_eq.
  replace (Z.max (digits (Zpos m) + e - 53) (-1074) - e) with n by lia.
  simpl shr_record_of_loc. rewrite shr_exact by lia.
  rewrite round_nearest_even_shr. fold (round_up n (Zpos m)). fold (rnd_at n (Zpos m)).
  set (m1 := rnd_at n (Zpos m)) in *. cbv zeta.
  destruct (Z.eqb_spec m1 (2 ^ 53)) as [Heq|Hne].
  - rewrite Heq. change (digits (2 ^ 53)) with 54. rewrite fexp_eq.
    replace (Z.max (54 + (e + n) - 53) (-1074) - (e + n)) with 1 by lia.
    simpl shr_record_of_loc. rewrite shr_exact by lia.
    simpl shr_m. change (2 ^ 53 / 2 ^ 1) with (Zpos (Z.to_pos (2 ^ (53 - 1)))).
    cbv iota. done.
  - assert (digits m1 = 53) as Hd1.
    { apply digits_unique; [change (53 - 1) with 52|]; lia. }
    rewrite Hd1, fexp_eq.
    replace (Z.max (53 + (e + n) - 53) (-1074) - (e + n)) with 0 by lia.
    simpl shr_record_of_loc. rewrite shr_zero. simpl shr_m.
    destruct m1 as [|p1|p1]; [lia | | lia]. done.
Qed.

(** ** The value of a rounded sum *)

Lemma INF_eq : INF = 2 ^ 2098.
Proof. reflexivity. Qed.

Lemma pow2_le (a b : Z) : 0 ≤ a ≤ b → 2 ^ a ≤ 2 ^ b.
Proof. intros. apply Z.pow_le_mono_r; lia. Qed.

Lemma dropped_mul_pow2 (m j : Z) :
  0 < m → 0 ≤ j → dropped (m * 2 ^ j) = Z.max (digits m + j - 53) 0.
Proof. intros. unfold dropped. rewrite digits_mul_pow2 by lia. done. Qed.

(** A canonical mantissa at exponent [e] is a point of the grid. *)
Lemma rnd_canonical (m e : Z) :
  0 < m → emin ≤ e → fexp (digits m + e) = e →
  rnd (m * 2 ^ (e - emin)) = m * 2 ^ (e - emin).
Proof.
  change emin with (-1074). rewrite fexp_eq. intros Hm He Hcan.
  unfold rnd. rewrite dropped_mul_pow2 by lia.
  replace (Z.max (digits m + (e - -1074) - 53) 0) with (e - -1074) by lia.
  destruct (Z.eqb_spec (e - -1074) 0) as [?|Hne]; [done|].
  by rewrite rnd_at_exact by lia.
Qed.

Lemma value_canonical (m : positive) (e : Z) :
  emin ≤ e → fexp (digits (Zpos m) + e) = e →
  value (if e <=? emax - prec then S754_finite false m e else S754_infinity false) =
    Z.min (Zpos m * 2 ^ (e - emin)) INF.
Proof.
  change emin with (-1074). change prec with 53. change emax with 1024.
  rewrite fexp_eq, INF_eq. intros He Hcan.
  pose proof (digits_bounds (Zpos m) ltac:(lia)) as Hm.
  pose proof (digits_positive (Zpos m) ltac:(lia)) as Hd.
  pose proof (pow2_pos (e - -1074) ltac:(lia)) as Hpe.
  destruct (Z.leb_spec e (1024 - 53)) as [Hle|Hgt]; cbv beta iota delta [value]; change emin with (-1074).
  - rewrite Z.min_l; [done|].
    assert (Zpos m * 2 ^ (e - -1074) ≤ 2 ^ digits (Zpos m) * 2 ^ (e - -1074)) by nia.
    rewrite <-Z.pow_add_r in H by lia.
    etrans; [done|]. apply pow2_le. lia.
  - rewrite Z.min_r; [by rewrite INF_eq|].
    assert (digits (Zpos m) = 53) as Hd53 by lia. rewrite Hd53 in Hm.
    assert (2 ^ (53 - 1) * 2 ^ (e - -1074) ≤ Zpos m * 2 ^ (e - -1074)) by nia.
    rewrite <-Z.pow_add_r in H by lia.
    etrans; [|done]. apply pow2_le. lia.
Qed.

Lemma value_shift (m : positive) (e n : Z) :
  emin ≤ e → 0 < n → n = digits (Zpos m) - prec →
  value (let m1 := rnd_at n (Zpos m) in
         if m1 =? 2 ^ prec
         then (if e + n + 1 <=? emax - prec
               then S754_finite false (Z.to_pos (2 ^ (prec - 1))) (e + n + 1)
               else S754_infinity false)
         else (if e + n <=? emax - prec
               then S754_finite false (Z.to_pos m1) (e + n)
               else S754_infinity false)) =
    Z.min (rnd_at n (Zpos m) * 2 ^ (e + n - emin)) INF.
Proof.
  change emin with (-1074). change prec with 53. change emax with 1024.
  rewrite INF_eq. intros He Hn Hd.
  pose proof (digits_bounds (Zpos m) ltac:(lia)) as Hm.
  pose proof (pow2_pos n ltac:(lia)) as Hpn.
  assert (2 ^ digits (Zpos m) = 2 ^ 53 * 2 ^ n) as Hsplit.
  { rewrite <-Z.pow_add_r by lia. f_equal. lia. }
  assert (2 ^ (digits (Zpos m) - 1) = 2 ^ 52 * 2 ^ n) as Hsplit'.
  { rewrite <-Z.pow_add_r by lia. f_equal. lia. }
  assert (2 ^ 52 ≤ Zpos m / 2 ^ n < 2 ^ 53) as Hq.
  { split.
    - apply Z.div_le_lower_bound; lia.
    - apply Z.div_lt_upper_bound; lia. }
  pose proof (rnd_at_bounds n (Zpos m) ltac:(lia) ltac:(lia)) as Hm1.
  set (m1 := rnd_at n (Zpos m)) in *. cbv zeta.
  pose proof (pow2_pos (e + n - -1074) ltac:(lia)) as Hpe.
  destruct (Z.eqb_spec m1 (2 ^ 53)) as [Heq|Hne].
  - rewrite Heq, <-Z.pow_add_r by lia.
    destruct (Z.leb_spec (e + n + 1) (1024 - 53)) as [Hle|Hgt]; cbv beta iota delta [value]; change emin with (-1074).
    + rewrite Z2Pos.id by (apply pow2_pos; lia).
      rewrite <-Z.pow_add_r by lia.
      replace (53 - 1 + (e + n + 1 - -1074)) with (53 + (e + n - -1074)) by lia.
      rewrite Z.min_l; [done|]. apply pow2_le. lia.
    + rewrite Z.min_r; [by rewrite INF_eq|]. apply pow2_le. lia.
  - destruct (Z.leb_spec (e + n) (1024 - 53)) as [Hle|Hgt]; cbv beta iota delta [value]; change emin with (-1074).
    + rewrite Z2Pos.id by lia. rewrite Z.min_l; [done|].
      assert (m1 * 2 ^ (e + n - -1074) ≤ 2 ^ 53 * 2 ^ (e + n - -1074)) by nia.
      rewrite <-Z.pow_add_r in H by lia.
      etrans; [done|]. apply pow2_le. lia.
    + rewrite Z.min_r; [by rewrite INF_eq|].
      assert (2 ^ 52 * 2 ^ (e + n - -1074) ≤ m1 * 2 ^ (e + n - -1074)) by nia.
      rewrite <-Z.pow_add_r in H by lia.
      etrans; [|done]. apply pow2_le. lia.
Qed.

Lemma pos_iter_xO (p q : positive) : Zpos (Pos.iter xO p q) = Zpos p * 2 ^ Zpos q.
Proof.
  change (Pos.iter xO p q) with (shift_pos q p).
  rewrite shift_pos_correct. change (Z.pow_pos 2 q) with (2 ^ Zpos q). lia.
Qed.

(** Rounding the exact value [p * 2^e] of a sum of two non-negative numbers:
    the result is the value rounded to the grid, or [+infinity] from [INF]
    on. *)
Lemma binary_round_value (p : positive) (e : Z) :
  emin ≤ e →
  nonneg (binary_round prec emax false p e) = true ∧
  value (binary_round prec emax false p e) = Z.min (rnd (Zpos p * 2 ^ (e - emin))) INF.
Proof.
  intros He. unfold binary_round.
  change (Zpos (digits2_pos p)) with (digits (Zpos p)).
  pose proof (digits_positive (Zpos p) ltac:(lia)) as Hd.
  pose proof (fexp_eq (digits (Zpos p) + e)) as Hfe.
  change emin with (-1074) in *.
  set (fe := fexp (digits (Zpos p) + e)) in *.
  unfold shl_align.
  destruct (fe - e) as [|q|q] eqn:Hq.
  - (* the mantissa is canonical as it is *)
    assert (fe = e) as Hcan by lia.
    rewrite binary_round_aux_canonical by done.
    split; [by destruct (e <=? emax - prec)|].
    rewrite value_canonical by done.
    by rewrite rnd_canonical by (done || lia).
  - (* the mantissa has more than [prec] digits *)
    assert (Zpos q = digits (Zpos p) - prec) as Hn by (change prec with 53; lia).
    rewrite (binary_round_aux_shift p e (Zpos q)) by (done || lia).
    split.
    { cbv zeta. by repeat case_match. }
    rewrite value_shift by (done || lia). f_equal.
    unfold rnd. rewrite dropped_mul_pow2 by lia.
    change prec with 53 in Hn. change emin with (-1074).
    replace (Z.max (digits (Zpos p) + (e - -1074) - 53) 0) with (Zpos q + (e - -1074)) by lia.
    destruct (Z.eqb_spec (Zpos q + (e - -1074)) 0) as [?|_]; [lia|].
    rewrite rnd_at_scale by lia. f_equal. f_equal. lia.
  - (* the mantissa is shifted left to the canonical exponent *)
    assert (e - fe = Zpos q) as Hsh by lia.
    assert (Zpos (Pos.iter xO p q) * 2 ^ (fe - -1074) = Zpos p * 2 ^ (e - -1074)) as Hval.
    { rewrite pos_iter_xO, <-Hsh, <-Z.mul_assoc, <-Z.pow_add_r by lia. f_equal. f_equal. lia. }
    assert (fexp (digits (Zpos (Pos.iter xO p q)) + fe) = fe) as Hcan.
    { rewrite pos_iter_xO, digits_mul_pow2 by lia. rewrite <-Hsh.
      replace (digits (Zpos p) + (e - fe) + fe) with (digits (Zpos p) + e) by lia. done. }
    rewrite binary_round_aux_canonical by done.
    split; [by destruct (fe <=? emax - prec)|].
    rewrite value_canonical by (done || change emin with (-1074); lia).
    change emin with (-1074). rewrite Hval. f_equal.
    rewrite <-Hval. symmetry. apply rnd_canonical; [lia | change emin with (-1074); lia | done].
Qed.

(** ** Rounding is monotone *)

Lemma rnd_at_mono (k m1 m2 : Z) :
  1 ≤ k → 0 ≤ m1 ≤ m2 → rnd_at k m1 ≤ rnd_at k m2.
Proof.
  intros Hk Hm. unfold rnd_at, round_up, round_bit, sticky_bit.
  pose proof (pow2_pos (k - 1) ltac:(lia)) as Hh.
  replace (2 ^ k) with (2 ^ (k - 1) * 2).
  2:{ rewrite Z.mul_comm, <-Z.pow_succ_r by lia. f_equal. lia. }
  set (h := 2 ^ (k - 1)) in *.
  rewrite <-!Z.div_div by lia.
  pose proof (Z.div_le_mono m1 m2 h Hh ltac:(lia)) as Ht.
  pose proof (Z.div_mod m1 h ltac:(lia)) as E1.
  pose proof (Z.div_mod m2 h ltac:(lia)) as E2.
  pose proof (Z.mod_pos_bound m1 h Hh) as L1.
  pose proof (Z.mod_pos_bound m2 h Hh) as L2.
  set (t1 := m1 / h) in *. set (t2 := m2 / h) in *.
  set (l1 := m1 mod h) in *. set (l2 := m2 mod h) in *.
  pose proof (Z.div_le_mono t1 t2 2 ltac:(lia) Ht) as Hq.
  pose proof (Z.div_mod t1 2 ltac:(lia)) as D1.
  pose proof (Z.div_mod t2 2 ltac:(lia)) as D2.
  rewrite Zmod_odd in D1, D2.
  destruct (Z.eqb_spec l1 0) as [Hl1|Hl1], (Z.eqb_spec l2 0) as [Hl2|Hl2];
    destruct (Z.odd t1), (Z.odd t2), (Z.odd (t1 / 2)) eqn:O1, (Z.odd (t2 / 2)) eqn:O2;
    simpl; try lia;
    destruct (Z.eq_dec (t1 / 2) (t2 / 2)) as [Heq|Hne]; try lia;
    try (rewrite Heq in O1; congruence);
    assert (t1 = t2) as Heqt by lia; nia.
Qed.

Lemma rnd_zero : rnd 0 = 0.
Proof. reflexivity. Qed.

Lemma rnd_bounds (v : Z) : 0 < v → 2 ^ (digits v - 1) ≤ rnd v ≤ 2 ^ digits v.
Proof.
  intros Hv. pose proof (digits_bounds v Hv) as Hd.
  pose proof (digits_positive v Hv) as Hp.
  unfold rnd, dropped. change prec with 53.
  destruct (Z.eqb_spec (Z.max (digits v - 53) 0) 0) as [?|Hne]; [lia|].
  replace (Z.max (digits v - 53) 0) with (digits v - 53) by lia.
  set (k := digits v - 53) in *.
  pose proof (pow2_pos k ltac:(lia)) as Hk.
  assert (2 ^ digits v = 2 ^ 53 * 2 ^ k) as Hsplit.
  { rewrite <-Z.pow_add_r by lia. f_equal. lia. }
  assert (2 ^ (digits v - 1) = 2 ^ 52 * 2 ^ k) as Hsplit'.
  { rewrite <-Z.pow_add_r by lia. f_equal. lia. }
  assert (2 ^ 52 ≤ v / 2 ^ k < 2 ^ 53) as Hq.
  { split.
    - apply Z.div_le_lower_bound; lia.
    - apply Z.div_lt_upper_bound; lia. }
  pose proof (rnd_at_bounds k v ltac:(lia) ltac:(lia)) as Hr.
  rewrite Hsplit, Hsplit'. split; apply Z.mul_le_mono_nonneg_r; lia.
Qed.

Lemma rnd_mono (v1 v2 : Z) : 0 ≤ v1 ≤ v2 → rnd v1 ≤ rnd v2.
Proof.
  intros [H1 H12].
  destruct (Z.eq_dec v1 0) as [->|Hne1].
  { rewrite rnd_zero. destruct (Z.eq_dec v2 0) as [->|Hne2]; [done|].
    pose proof (rnd_bounds v2 ltac:(lia)) as [Hl _].
    pose proof (pow2_pos (digits v2 - 1)) as Hp.
    pose proof (digits_positive v2 ltac:(lia)). lia. }
  pose proof (digits_mono v1 v2 ltac:(lia)) as Hd.
  pose proof (digits_positive v1 ltac:(lia)) as Hp1.
  destruct (Z.eq_dec (digits v1) (digits v2)) as [Heq|Hlt].
  - unfold rnd, dropped. rewrite Heq.
    destruct (Z.eqb_spec (Z.max (digits v2 - prec) 0) 0) as [?|Hk]; [done|].
    apply Z.mul_le_mono_nonneg_r; [apply Z.lt_le_incl, pow2_pos; lia|].
    apply rnd_at_mono; lia.
  - pose proof (rnd_bounds v1 ltac:(lia)) as [_ Hu].
    pose proof (rnd_bounds v2 ltac:(lia)) as [Hl _].
    pose proof (pow2_le (digits v1) (digits v2 - 1) ltac:(lia)). lia.
Qed.

(** ** Order and addition on non-negative numbers *)

Lemma value_zero (s : bool) : value (S754_zero s) = 0.
Proof. reflexivity. Qed.

Lemma value_infinity : value (S754_infinity false) = INF.
Proof. reflexivity. Qed.

Lemma value_finite (m : positive) (e : Z) :
  value (S754_finite false m e) = Zpos m * 2 ^ (e - emin).
Proof. reflexivity. Qed.

Ltac value_simpl := rewrite ?value_zero, ?value_infinity, ?value_finite in *.

Lemma bounded_inv (m : positive) (e : Z) :
  bounded prec emax m e = true →
  fexp (digits (Zpos m) + e) = e ∧ emin ≤ e ≤ emax - prec.
Proof.
  unfold bounded, canonical_mantissa. intros [Hcan He]%andb_true_iff.
  apply Z.eqb_eq in Hcan. apply Z.leb_le in He.
  split; [done|]. split; [|done].
  change (Zpos (digits2_pos m)) with (digits (Zpos m)) in Hcan.
  rewrite fexp_eq in Hcan. change emin with (-1074). lia.
Qed.

Lemma value_finite_bounds (m : positive) (e : Z) :
  bounded prec emax m e = true →
  2 ^ (digits (Zpos m) - 1 + (e - emin)) ≤ value (S754_finite false m e) < INF.
Proof.
  intros [Hcan [He1 He2]]%bounded_inv. rewrite fexp_eq in Hcan.
  change emin with (-1074) in *. change prec with 53 in *. change emax with 1024 in *.
  cbv beta iota delta [value]; change emin with (-1074).
  pose proof (digits_bounds (Zpos m) ltac:(lia)) as Hm.
  pose proof (digits_positive (Zpos m) ltac:(lia)) as Hd.
  pose proof (pow2_pos (e - -1074) ltac:(lia)) as Hpe.
  split.
  - rewrite Z.pow_add_r by lia. nia.
  - assert (Zpos m * 2 ^ (e - -1074) < 2 ^ digits (Zpos m) * 2 ^ (e - -1074)) as Hlt by nia.
    rewrite <-Z.pow_add_r in Hlt by lia.
    rewrite INF_eq. eapply Z.lt_le_trans; [done|]. apply pow2_le. lia.
Qed.

Lemma value_lt_exponent (m1 m2 : positive) (e1 e2 : Z) :
  bounded prec emax m1 e1 = true → bounded prec emax m2 e2 = true → e1 < e2 →
  value (S754_finite false m1 e1) < value (S754_finite false m2 e2).
Proof.
  intros H1 H2 Hlt.
  pose proof (value_finite_bounds m2 e2 H2) as [Hl2 _].
  apply bounded_inv in H1 as [Hcan1 [He1 _]]. apply bounded_inv in H2 as [Hcan2 [He2 _]].
  rewrite fexp_eq in Hcan1, Hcan2. change emin with (-1074) in *.
  eapply Z.lt_le_trans; [|done].
  cbv beta iota delta [value]; change emin with (-1074).
  pose proof (digits_bounds (Zpos m1) ltac:(lia)) as Hm.
  pose proof (digits_positive (Zpos m1) ltac:(lia)) as Hd.
  pose proof (pow2_pos (e1 - -1074) ltac:(lia)) as Hpe.
  assert (Zpos m1 * 2 ^ (e1 - -1074) < 2 ^ digits (Zpos m1) * 2 ^ (e1 - -1074)) as Hlt' by nia.
  rewrite <-Z.pow_add_r in Hlt' by lia.
  eapply Z.lt_le_trans; [done|]. apply pow2_le. lia.
Qed.

Lemma SFleb_value (x y : spec_float) :
  nonneg x = true → nonneg y = true →
  valid_binary x = true → valid_binary y = true →
  SFleb x y = (value x <=? value y).
Proof.
  intros Hx Hy Vx Vy.
  assert (0 < INF) as HINF by (rewrite INF_eq; by apply pow2_pos).
  destruct x as [sx|[]| |[] mx ex], y as [sy|[]| |[] my ey];
    cbv beta iota delta [nonneg SpecFloat.valid_binary] in Hx, Hy, Vx, Vy;
    try discriminate Hx; try discriminate Hy.
  - (* zero, zero *)
    done.
  - (* zero, infinity *)
    unfold SFleb; simpl; value_simpl. symmetry. apply Z.leb_le. lia.
  - (* zero, finite *)
    unfold SFleb; simpl; value_simpl. symmetry. apply Z.leb_le.
    pose proof (pow2_pos (ey - emin)) as Hp.
    apply bounded_inv in Vy as [_ [? _]]. nia.
  - (* infinity, zero *)
    unfold SFleb; simpl; value_simpl. symmetry. apply Z.leb_gt. lia.
  - (* infinity, infinity *)
    unfold SFleb; simpl; value_simpl. symmetry. apply Z.leb_le. lia.
  - (* infinity, finite *)
    pose proof (value_finite_bounds my ey Vy) as [_ Hlt].
    unfold SFleb. simpl SFcompare. cbv iota. value_simpl. symmetry. apply Z.leb_gt.
    lia.
  - (* finite, zero *)
    unfold SFleb; simpl; value_simpl. symmetry. apply Z.leb_gt.
    pose proof (pow2_pos (ex - emin)) as Hp.
    apply bounded_inv in Vx as [_ [? _]]. nia.
  - (* finite, infinity *)
    pose proof (value_finite_bounds mx ex Vx) as [_ Hlt].
    unfold SFleb. simpl SFcompare. cbv iota. value_simpl. symmetry. apply Z.leb_le.
    lia.
  - (* finite, finite *)
    unfold SFleb. simpl SFcompare.
    destruct (Z.compare_spec ex ey) as [->|Hlt|Hgt].
    + rewrite Pos.compare_cont_spec. simpl.
      pose proof (pow2_pos (ey - emin)) as Hp.
      apply bounded_inv in Vy as [_ [? _]].
      value_simpl.
      destruct (Pos.compare_spec mx my) as [->|Hm|Hm]; symmetry.
      * apply Z.leb_le. lia.
      * apply Z.leb_le. nia.
      * apply Z.leb_gt. nia.
    + pose proof (value_lt_exponent mx my ex ey Vx Vy Hlt).
      symmetry. apply Z.leb_le. lia.
    + pose proof (value_lt_exponent my mx ey ex Vy Vx Hgt).
      symmetry. apply Z.leb_gt. lia.
Qed.

Lemma shl_align_value (m : positive) (e e' : Z) :
  e' ≤ e → Zpos (fst (shl_align m e e')) = Zpos m * 2 ^ (e - e').
Proof.
  intros He. unfold shl_align. destruct (e' - e) as [|q|q] eqn:Hq; simpl fst.
  - replace (e - e') with 0 by lia. lia.
  - lia.
  - rewrite pos_iter_xO. f_equal. f_equal. lia.
Qed.

Lemma rnd_INF_le (v : Z) : INF ≤ v → INF ≤ rnd v.
Proof.
  intros Hv. assert (0 < INF) as HINF by (rewrite INF_eq; by apply pow2_pos).
  pose proof (rnd_mono INF v ltac:(lia)) as Hm.
  pose proof (rnd_bounds INF HINF) as [Hl _].
  change (digits INF) with 2099 in Hl. rewrite INF_eq in *. simpl in Hl. lia.
Qed.

(** The sum of two non-negative numbers is the rounded sum of their values. *)
Lemma SFadd_value (x y : spec_float) :
  nonneg x = true → nonneg y = true →
  valid_binary x = true → valid_binary y = true →
  nonneg (SFadd prec emax x y) = true ∧
  value (SFadd prec emax x y) = Z.min (rnd (value x + value y)) INF.
Proof.
  intros Hx Hy Vx Vy.
  assert (0 < INF) as HINF by (rewrite INF_eq; by apply pow2_pos).
  assert (∀ m e, bounded prec emax m e = true →
            Zpos m * 2 ^ (e - emin) = Z.min (rnd (Zpos m * 2 ^ (e - emin))) INF) as Hfin.
  { intros m e Hb. pose proof (value_finite_bounds m e Hb) as [_ Hlt].
    apply bounded_inv in Hb as [Hcan [He _]].
    rewrite rnd_canonical by (done || lia).
    rewrite value_finite in Hlt. lia. }
  assert (∀ v, 0 ≤ v → INF = Z.min (rnd (INF + v)) INF) as Hinf.
  { intros v Hv. pose proof (rnd_INF_le (INF + v) ltac:(lia)). lia. }
  destruct x as [sx|[]| |[] mx ex], y as [sy|[]| |[] my ey];
    cbv beta iota delta [nonneg SpecFloat.valid_binary] in Hx, Hy, Vx, Vy;
    try discriminate Hx; try discriminate Hy.
  - (* zero, zero *)
    split; [by destruct sx, sy|]. by destruct sx, sy; simpl SFadd; value_simpl.
  - (* zero, infinity *)
    split; [done|]. simpl SFadd. value_simpl. apply (Hinf 0). lia.
  - (* zero, finite *)
    split; [done|]. simpl SFadd. value_simpl. rewrite Z.add_0_l. by apply Hfin.
  - (* infinity, zero *)
    split; [done|]. simpl SFadd. value_simpl. apply (Hinf 0). lia.
  - (* infinity, infinity *)
    split; [done|]. simpl SFadd. value_simpl. apply (Hinf INF). lia.
  - (* infinity, finite *)
    split; [done|]. simpl SFadd. value_simpl. apply Hinf.
    pose proof (pow2_pos (ey - emin)) as Hp.
    apply bounded_inv in Vy as [_ [? _]]. nia.
  - (* finite, zero *)
    split; [done|]. simpl SFadd. value_simpl. rewrite Z.add_0_r. by apply Hfin.
  - (* finite, infinity *)
    split; [done|]. simpl SFadd. value_simpl. rewrite Z.add_comm. apply Hinf.
    pose proof (pow2_pos (ex - emin)) as Hp.
    apply bounded_inv in Vx as [_ [? _]]. nia.
  - (* finite, finite *)
    apply bounded_inv in Vx as [_ [Hex _]]. apply bounded_inv in Vy as [_ [Hey _]].
    unfold SFadd, cond_Zopp, binary_normalize.
    set (ez := Z.min ex ey).
    pose proof (shl_align_value mx ex ez ltac:(lia)) as Hsx.
    pose proof (shl_align_value my ey ez ltac:(lia)) as Hsy.
    change (Zpos (fst (shl_align mx ex ez)) + Zpos (fst (shl_align my ey ez)))
      with (Zpos (fst (shl_align mx ex ez) + fst (shl_align my ey ez))).
    cbv beta iota.
    destruct (binary_round_value (fst (shl_align mx ex ez) + fst (shl_align my ey ez)) ez
                ltac:(lia)) as [Hn Hv].
    split; [exact Hn|]. rewrite Hv. f_equal. f_equal.
    rewrite Pos2Z.inj_add, Hsx, Hsy. value_simpl.
    rewrite Z.mul_add_distr_r, <-!Z.mul_assoc, <-!Z.pow_add_r by lia.
    f_equal; f_equal; f_equal; lia.
Qed.

Lemma nonneg_le (x y : spec_float) :
  nonneg x = true → SFleb x y = true → nonneg y = true.
Proof.
  destruct x as [sx|[]| |[] mx ex], y as [sy|[]| |[] my ey]; intros Hx Hxy;
    try discriminate Hx; try discriminate Hxy; reflexivity.
Qed.

(** ** Primitive floats *)

Lemma Prim2SF_zero : Prim2SF 0 = S754_zero false.
Proof. reflexivity. Qed.

Lemma leb_zero_nonneg (x : float) :
  PrimFloat.leb 0 x = true ↔ nonneg (Prim2SF x) = true.
Proof.
  rewrite leb_spec, Prim2SF_zero.
  destruct (Prim2SF x) as [s|[]| |[] m e]; split; intros H;
    try discriminate H; reflexivity.
Qed.

Lemma leb_value (x y : float) :
  nonneg (Prim2SF x) = true → nonneg (Prim2SF y) = true →
  PrimFloat.leb x y = (value (Prim2SF x) <=? value (Prim2SF y)).
Proof.
  intros Hx Hy. rewrite leb_spec. apply SFleb_value; auto using Prim2SF_valid.
Qed.

Lemma add_value (x y : float) :
  nonneg (Prim2SF x) = true → nonneg (Prim2SF y) = true →
  nonneg (Prim2SF (PrimFloat.add x y)) = true ∧
  value (Prim2SF (PrimFloat.add x y)) =
    Z.min (rnd (value (Prim2SF x) + value (Prim2SF y))) INF.
Proof.
  intros Hx Hy. rewrite add_spec. apply SFadd_value; auto using Prim2SF_valid.
Qed.

Lemma value_nonneg (x : spec_float) : 0 ≤ value x.
Proof.
  destruct x as [s|[]| |[] m e]; try reflexivity.
  - rewrite value_infinity, INF_eq. apply Z.pow_nonneg. lia.
  - rewrite value_finite. apply Z.mul_nonneg_nonneg; [lia | apply Z.pow_nonneg; lia].
Qed.

(** Floating-point addition of non-negative numbers stays non-negative. *)
Lemma add_nonneg (a c : float) :
  PrimFloat.leb 0 a = true → PrimFloat.leb 0 c = true →
  PrimFloat.leb 0 (PrimFloat.add a c) = true.
Proof.
  rewrite !leb_zero_nonneg. intros Ha Hc. by apply add_value.
Qed.

(** Floating-point addition is monotone on non-negative numbers: rounding
    to nearest never reverses the order of two exact sums. *)
Lemma add_le_mono (a b c d : float) :
  PrimFloat.leb 0 a = true → PrimFloat.leb a b = true →
  PrimFloat.leb 0 c = true → PrimFloat.leb c d = true →
  PrimFloat.leb (PrimFloat.add a c) (PrimFloat.add b d) = true.
Proof.
  intros Ha Hab Hc Hcd.
  apply leb_zero_nonneg in Ha, Hc.
  assert (nonneg (Prim2SF b) = true) as Hb.
  { apply (nonneg_le (Prim2SF a)); [done | by rewrite <-leb_spec]. }
  assert (nonneg (Prim2SF d) = true) as Hd.
  { apply (nonneg_le (Prim2SF c)); [done | by rewrite <-leb_spec]. }
  rewrite leb_value in Hab, Hcd by done.
  apply Z.leb_le in Hab, Hcd.
  destruct (add_value a c Ha Hc) as [Hac Vac].
  destruct (add_value b d Hb Hd) as [Hbd Vbd].
  rewrite leb_value, Vac, Vbd by done. apply Z.leb_le.
  pose proof (value_nonneg (Prim2SF a)). pose proof (value_nonneg (Prim2SF c)).
  pose proof (rnd_mono (value (Prim2SF a) + value (Prim2SF c))
                (value (Prim2SF b) + value (Prim2SF d)) ltac:(lia)).
  lia.
Qed.

Lemma leb_refl_nonneg (x : float) :
  PrimFloat.leb 0 x = true → PrimFloat.leb x x = true.
Proof.
  intros Hx%leb_zero_nonneg. rewrite leb_value by done. apply Z.leb_le. lia.
Qed.
End Binary64Facts.

(** ** The coverage builder as a whole *)

Section BuilderModel.
Variable py_float : string → option float.
Variables (dl_id_field fl_id_field demand_field distance_field : string).

Abbreviation init_row := (init_row py_float dl_id_field fl_id_field demand_field).
Abbreviation cover_row := (cover_row py_float dl_id_field fl_id_field distance_field).
Abbreviation build_coverage :=
  (build_coverage py_float dl_id_field fl_id_field demand_field distance_field).
Abbreviation generate :=
  (generate_binary_coverage_from_dist_matrix
     py_float dl_id_field fl_id_field demand_field distance_field).

(** A run of the builder that returns a model is a run of the three loops,
    and leaves its three messages in the log. *)
Lemma generate_Ok rows thr name w w' m :
  generate rows thr name w = (w', Ok m) →
  build_coverage rows thr (default "facility" name) = Ok m ∧
  w' = World (stdout w) (log w ++ builder_log).
Proof.
  unfold generate_binary_coverage_from_dist_matrix, build_coverage.
  unfold mbind, M_bind, logging_info, lift; simpl.
  destruct (for_each _ rows _) as [[[d1 sf] sd]|e]; simpl; [|done].
  destruct (for_each _ rows d1) as [d2|e]; simpl; [|done].
  unfold mret, M_ret. intros [= <- <-]. split; [done|].
  by rewrite <-!app_assoc.
Qed.

Lemma init_rows_NoDup name rows d sf sd d' sf' sd' :
  for_each (init_row name) rows (d, sf, sd) = Ok (d', sf', sd') →
  NoDup (dkeys d) → NoDup (dkeys d').
Proof.
  revert d sf sd. induction rows as [|r rows IH]; intros d sf sd Hrun Hnd; simpl in Hrun.
  - by injection Hrun as -> -> ->.
  - apply bind_Ok in Hrun as ([[d1 sf1] sd1] & Hrow & Hrest).
    apply (IH _ _ _ Hrest).
    apply init_row_inv in Hrow as (f & k & _ & _ & [[_ [= -> _ _]]|(_ & c & x & _ & _ & [= -> _ _])]);
      [done | by apply NoDup_dkeys_dset].
Qed.

Lemma first_row_for_unique rows k i r i' r' :
  first_row_for dl_id_field rows k i r → first_row_for dl_id_field rows k i' r' →
  i = i' ∧ r = r'.
Proof.
  intros (Hi & Hk & Hmin) (Hi' & Hk' & Hmin').
  assert (i = i') as ->.
  { destruct (Nat.lt_trichotomy i i') as [Hlt|[?|Hlt]]; [|done|].
    - by destruct (Hmin' i r Hlt Hi).
    - by destruct (Hmin i' r' Hlt Hi'). }
  split; [done | congruence].
Qed.

Lemma first_row_for_exists rows k r :
  r ∈ rows → r !! dl_id_field = Some k → ∃ i r', first_row_for dl_id_field rows k i r'.
Proof.
  induction rows as [|r0 rows IH]; [by intros ?%elem_of_nil|].
  intros Hin Hk. destruct (decide (r0 !! dl_id_field = Some k)) as [Hk0|Hk0].
  - exists 0, r0. split_and!; [done | done | intros; lia].
  - apply elem_of_cons in Hin as [->|Hin]; [done|].
    destruct (IH Hin Hk) as (i & r' & Hi & Hk' & Hmin).
    exists (S i), r'. split_and!; [done | done |].
    intros [|j] r'' Hj; simpl; [by intros [= <-] | intros; eapply Hmin; [|done]; lia].
Qed.

(** The shape of a model that the three loops return. *)
Lemma build_coverage_Ok rows thr name m :
  build_coverage rows thr name = Ok m →
  NoDup (dkeys (demand m)) ∧
  (∀ k, k ∈ dkeys (demand m) ↔ ∃ r, r ∈ rows ∧ r !! dl_id_field = Some k) ∧
  (∀ k e, dget (demand m) k = Some e →
     ∃ i r cell weight,
       first_row_for dl_id_field rows k i r ∧
       r !! demand_field = Some cell ∧ py_float cell = Some weight ∧
       entry_after py_float dl_id_field fl_id_field distance_field name thr
         rows k (fresh_entry name weight) e) ∧
  (totalServiceableDemand m, totalDemand m) =
    foldl summary_row (PyFloat.zero, PyFloat.zero) (dvalues (demand m)).
Proof.
  unfold build_coverage. intros H.
  apply bind_Ok in H as ([[d1 sf] sd] & Hinit & H).
  apply bind_Ok in H as (d2 & Hcover & [= <-]). simpl.
  pose proof (init_rows_NoDup _ _ _ _ _ _ _ _ Hinit (NoDup_nil_2)) as Hnd.
  apply init_rows_inv in Hinit as (_ & Hkeys & _ & Hfresh & _); [|set_solver].
  apply cover_rows_inv in Hcover as [Hsame Hafter].
  split_and!.
  - by rewrite Hsame.
  - intros k. rewrite Hsame, Hkeys. split; [|by right].
    by intros [?%elem_of_nil|?].
  - intros k e He.
    assert (is_Some (dget d1 k)) as [e1 He1].
    { apply elem_of_dkeys. rewrite <-Hsame. apply elem_of_dkeys. by eexists. }
    destruct (Hfresh k e1) as (i & r & cell & w & Hfirst & Hcell & Hw & ->);
      [by intros ?%elem_of_nil | done |].
    destruct (Hafter k _ He1) as (e' & He' & Hrel).
    assert (e' = e) as -> by congruence.
    by exists i, r, cell, w.
  - by destruct (foldl _ _ _).
Qed.
End BuilderModel.

(** ** The builder returns a model on well-formed rows *)

Section BuilderTotal.
Variable py_float : string → option float.
Variables (dl_id_field fl_id_field demand_field distance_field : string).

Abbreviation init_row := (init_row py_float dl_id_field fl_id_field demand_field).
Abbreviation cover_row := (cover_row py_float dl_id_field fl_id_field distance_field).
Abbreviation generate :=
  (generate_binary_coverage_from_dist_matrix
     py_float dl_id_field fl_id_field demand_field distance_field).
Abbreviation well_formed_row :=
  (well_formed_row py_float dl_id_field fl_id_field demand_field distance_field).

Lemma init_row_total name st r :
  well_formed_row r → ∃ st', init_row name st r = Ok st'.
Proof.
  intros ([f Hf] & [k Hk] & (cell & x & Hcell & Hx) & _).
  destruct st as [[d sf] sd]. unfold init_row, getitem, float_of.
  rewrite Hf, Hk. simpl. case_decide; [|by eexists].
  rewrite Hcell. simpl. rewrite Hx. simpl. by eexists.
Qed.

Lemma init_rows_total name rows st :
  Forall well_formed_row rows → ∃ st', for_each (init_row name) rows st = Ok st'.
Proof.
  intros Hwf. revert st. induction Hwf as [|r rows Hr _ IH]; intros st; simpl.
  - by eexists.
  - destruct (init_row_total name st r Hr) as [st1 ->]. simpl. apply IH.
Qed.

Lemma cover_row_total name thr d r k e :
  well_formed_row r → r !! dl_id_field = Some k → dget d k = Some e →
  is_Some (Demand.coverage e !! name) →
  ∃ d', cover_row name thr d r = Ok d'.
Proof.
  intros ([f Hf] & _ & _ & (cell & x & Hcell & Hx)) Hk He [cov Hcov].
  unfold cover_row, getitem, dgetitem, float_of.
  rewrite Hcell. simpl. rewrite Hx. simpl.
  destruct (PrimFloat.leb x thr); [|by eexists].
  rewrite Hk. simpl. rewrite He. simpl. rewrite dget_dset_eq. simpl.
  rewrite Hcov. simpl. rewrite Hf. simpl. by eexists.
Qed.

Lemma cover_rows_total name thr rows d :
  Forall well_formed_row rows →
  (∀ r, r ∈ rows → ∃ k, r !! dl_id_field = Some k ∧ k ∈ dkeys d) →
  (∀ k e, dget d k = Some e → is_Some (Demand.coverage e !! name)) →
  ∃ d', for_each (cover_row name thr) rows d = Ok d'.
Proof.
  intros Hwf. revert d. induction Hwf as [|r rows Hr _ IH]; intros d Hkeys Hcov; simpl.
  - by eexists.
  - destruct (Hkeys r) as (k & Hk & [e He]%elem_of_dkeys); [left|].
    destruct (cover_row_total name thr d r k e Hr Hk He (Hcov _ _ He)) as [d1 Hd1].
    rewrite Hd1. simpl. apply IH.
    + intros r' Hr'. destruct (Hkeys r') as (k' & Hk' & Hin); [by right|].
      exists k'. split; [done|].
      apply cover_row_inv in Hd1 as [[_ ->]|(_ & k0 & f & e0 & c & _ & _ & He0 & _ & ->)];
        [done|].
      rewrite dkeys_dset_Some; [done | by eexists].
    + intros k' e' He'.
      apply cover_row_inv in Hd1 as [[_ ->]|(_ & k0 & f & e0 & c & _ & _ & He0 & _ & ->)];
        [by eapply Hcov|].
      rewrite dget_dset in He'. case_decide; [|by eapply Hcov].
      injection He' as <-. simpl. rewrite lookup_insert_eq. by eexists.
Qed.

(** On rows that all carry the four fields, with weights and distances
    that parse, the builder returns a model and logs its three messages. *)
Lemma generate_total rows thr name w :
  Forall well_formed_row rows →
  ∃ m, generate rows thr name w = (World (stdout w) (log w ++ builder_log), Ok m).
Proof.
  intros Hwf.
  destruct (init_rows_total (default "facility" name) rows ([], ∅, ∅) Hwf)
    as [[[d1 sf] sd] Hinit].
  pose proof Hinit as (_ & Hkeys & _ & Hfresh & _)%init_rows_inv; [|set_solver].
  destruct (cover_rows_total (default "facility" name) thr rows d1 Hwf) as [d2 Hcover].
  { intros r Hr. apply Forall_forall with (x := r) in Hwf as (_ & [k Hk] & _); [|done].
    exists k. split; [done|]. apply Hkeys. right. by exists r. }
  { intros k e He. destruct (Hfresh k e) as (i & r & cell & weight & _ & _ & _ & Heq);
      [by intros ?%elem_of_nil | done |].
    rewrite Heq. simpl. rewrite lookup_singleton_eq. by eexists. }
  unfold generate_binary_coverage_from_dist_matrix.
  unfold mbind, M_bind, logging_info, lift; simpl.
  rewrite Hinit. simpl. rewrite Hcover. simpl.
  eexists. unfold mret, M_ret. f_equal. f_equal. by rewrite <-!app_assoc.
Qed.
End BuilderTotal.

(** * The claims about the coverage builder *)

(** The example of the specification, run. *)
Lemma example_run :
  generate_default example_rows 5000 w0 = (w1, Ok example_model).
Proof. vm_compute. reflexivity. Qed.

(** The same rows with the threshold equal to the smallest distance. *)
Lemma example_run_inclusive :
  generate_default example_rows 4000 w0 = (w1, Ok example_model).
Proof. vm_compute. reflexivity. Qed.

Lemma duplicate_run :
  generate_default duplicate_rows 5000 w0 = (w1, Ok duplicate_model).
Proof. vm_compute. reflexivity. Qed.

Section BuilderClaims.
Variable py_float : string → option float.
Variables (dl_id_field fl_id_field demand_field distance_field : string).

Abbreviation generate :=
  (generate_binary_coverage_from_dist_matrix
     py_float dl_id_field fl_id_field demand_field distance_field).

(** C1. In the model that the builder returns, facility [f] is in the
    coverage set of demand unit [d] under the facility variable name if
    and only if some input row pairs [f] with [d] at a distance less than
    or equal to the threshold ([PrimFloat.leb], so a distance equal to
    the threshold counts). *)
Theorem coverage_iff_row_within_threshold rows thr name w w' m :
  generate rows thr name w = (w', Ok m) →
  ∀ d f, in_coverage m (default "facility" name) d f ↔
         covered_by py_float dl_id_field fl_id_field distance_field thr rows d f.
Proof.
  intros [Hbuild _]%generate_Ok d f.
  apply build_coverage_Ok in Hbuild as (_ & Hkeys & Hentry & _).
  split.
  - intros (e & cov & He & Hcov & Hf).
    destruct (Hentry d e He) as (i & r & cell & weight & _ & _ & _ & Hafter).
    destruct Hafter as (_ & _ & _ & _ & Hc).
    destruct (Hc ∅) as (cov' & Hcov' & Hdom); [apply lookup_singleton_eq|].
    assert (cov' = cov) as -> by congruence.
    apply Hdom in Hf as [Hf|Hf]; [by rewrite dom_empty in Hf | done].
  - intros Hby. pose proof Hby as (r & Hr & Hd & _).
    assert (d ∈ dkeys (demand m)) as [e He]%elem_of_dkeys by (apply Hkeys; eauto).
    destruct (Hentry d e He) as (i & r' & cell & weight & _ & _ & _ & Hafter).
    destruct Hafter as (_ & _ & _ & _ & Hc).
    destruct (Hc ∅) as (cov' & Hcov' & Hdom); [apply lookup_singleton_eq|].
    exists e, cov'. split_and!; [done | done |]. apply Hdom. by right.
Qed.

(** C5. The demand weight stored for a demand id is the one parsed from
    the first row that carries the id, whatever later rows for the same
    id hold. *)
Theorem demand_weight_from_first_row rows thr name w w' m :
  generate rows thr name w = (w', Ok m) →
  ∀ d i r, first_row_for dl_id_field rows d i r →
    ∃ e cell weight,
      dget (demand m) d = Some e ∧
      r !! demand_field = Some cell ∧ py_float cell = Some weight ∧
      Demand.demand e = weight.
Proof.
  intros [Hbuild _]%generate_Ok d i r Hfirst.
  apply build_coverage_Ok in Hbuild as (_ & Hkeys & Hentry & _).
  assert (d ∈ dkeys (demand m)) as [e He]%elem_of_dkeys.
  { apply Hkeys. exists r. destruct Hfirst as (Hi & Hd & _).
    split; [by eapply list_elem_of_lookup_2 | done]. }
  destruct (Hentry d e He) as (i' & r' & cell & weight & Hfirst' & Hcell & Hw & Hafter).
  destruct (first_row_for_unique _ _ _ _ _ _ _ Hfirst Hfirst') as [-> ->].
  exists e, cell, weight. split_and!; [done..|].
  by destruct Hafter as (_ & -> & _).
Qed.

(** C6. Every entry's serviceable demand is either [0.0] or the entry's
    own demand weight. *)
Theorem serviceable_demand_zero_or_full rows thr name w w' m :
  generate rows thr name w = (w', Ok m) →
  ∀ d e, dget (demand m) d = Some e →
    Demand.serviceableDemand e = PyFloat.zero ∨
    Demand.serviceableDemand e = Demand.demand e.
Proof.
  intros [Hbuild _]%generate_Ok d e He.
  apply build_coverage_Ok in Hbuild as (_ & _ & Hentry & _).
  destruct (Hentry d e He) as (i & r & cell & weight & _ & _ & _ & Hafter).
  destruct Hafter as (_ & Hd & [[_ Hs]|[_ Hs]] & _); simpl in *.
  - right. congruence.
  - by left.
Qed.

(** C7. The keys of the model's demand mapping are exactly the demand ids
    that appear in the rows, each key once. *)
Theorem demand_keys_are_row_demand_ids rows thr name w w' m :
  generate rows thr name w = (w', Ok m) →
  NoDup (dkeys (demand m)) ∧
  ∀ d, d ∈ dkeys (demand m) ↔ ∃ r, r ∈ rows ∧ r !! dl_id_field = Some d.
Proof.
  intros [Hbuild _]%generate_Ok.
  by apply build_coverage_Ok in Hbuild as (Hnd & Hkeys & _).
Qed.
End BuilderClaims.

Lemma coverage_iff_row_within_threshold_witness :
  in_coverage example_model "facility" "D1" "F1" ↔
  covered_by PyFloat.of_decimal "demand_id" "facility_id" "distance" 4000
    example_rows "D1" "F1".
Proof.
  exact (coverage_iff_row_within_threshold PyFloat.of_decimal
           "demand_id" "facility_id" "demand" "distance"
           example_rows 4000 None w0 w1 example_model example_run_inclusive
           "D1" "F1").
Defined.

Lemma demand_weight_from_first_row_witness :
  ∃ e cell weight,
    dget (demand duplicate_model) "D1" = Some e ∧
    mk_row "F1" "D1" "10" "4000" !! "demand" = Some cell ∧
    PyFloat.of_decimal cell = Some weight ∧ Demand.demand e = weight.
Proof.
  apply (demand_weight_from_first_row PyFloat.of_decimal
           "demand_id" "facility_id" "demand" "distance"
           duplicate_rows 5000 None w0 w1 duplicate_model duplicate_run "D1" 0).
  split_and!; [reflexivity | reflexivity | intros; lia].
Defined.

Lemma serviceable_demand_zero_or_full_witness :
  Demand.serviceableDemand (mk_entry 10 10 ["F1"]) = PyFloat.zero ∨
  Demand.serviceableDemand (mk_entry 10 10 ["F1"]) = Demand.demand (mk_entry 10 10 ["F1"]).
Proof.
  apply (serviceable_demand_zero_or_full PyFloat.of_decimal
           "demand_id" "facility_id" "demand" "distance"
           example_rows 5000 None w0 w1 example_model example_run "D1").
  reflexivity.
Defined.

Lemma demand_keys_are_row_demand_ids_witness :
  NoDup (dkeys (demand duplicate_model)) ∧
  ∀ d, d ∈ dkeys (demand duplicate_model) ↔
       ∃ r, r ∈ duplicate_rows ∧ r !! "demand_id" = Some d.
Proof.
  exact (demand_keys_are_row_demand_ids PyFloat.of_decimal
           "demand_id" "facility_id" "demand" "distance"
           duplicate_rows 5000 None w0 w1 duplicate_model duplicate_run).
Defined.

(** * Sums that do not round *)

Module Binary64Exact.
Import Binary64 Binary64Facts.
Local Open Scope Z_scope.

(** [==] on non-negative numbers is equality of the values. *)
Lemma SFeqb_value (x y : spec_float) :
  nonneg x = true → nonneg y = true →
  valid_binary x = true → valid_binary y = true →
  SFeqb x y = (value x =? value y).
Proof.
  intros Hx Hy Vx Vy.
  assert (0 < INF) as HINF by (rewrite INF_eq; by apply pow2_pos).
  destruct x as [sx|[]| |[] mx ex], y as [sy|[]| |[] my ey];
    cbv beta iota delta [nonneg SpecFloat.valid_binary] in Hx, Hy, Vx, Vy;
    try discriminate Hx; try discriminate Hy.
  - done.
  - unfold SFeqb; simpl SFcompare; cbv iota; value_simpl. symmetry. apply Z.eqb_neq. lia.
  - unfold SFeqb; simpl SFcompare; cbv iota; value_simpl. symmetry. apply Z.eqb_neq.
    pose proof (pow2_pos (ey - emin)) as Hp.
    apply bounded_inv in Vy as [_ [? _]]. nia.
  - unfold SFeqb; simpl SFcompare; cbv iota; value_simpl. symmetry. apply Z.eqb_neq. lia.
  - unfold SFeqb; simpl SFcompare; cbv iota; value_simpl. symmetry. apply Z.eqb_eq. lia.
  - pose proof (value_finite_bounds my ey Vy) as [_ Hlt].
    unfold SFeqb. simpl SFcompare. cbv iota. value_simpl. symmetry. apply Z.eqb_neq.
    lia.
  - unfold SFeqb; simpl SFcompare; cbv iota; value_simpl. symmetry. apply Z.eqb_neq.
    pose proof (pow2_pos (ex - emin)) as Hp.
    apply bounded_inv in Vx as [_ [? _]]. nia.
  - pose proof (value_finite_bounds mx ex Vx) as [_ Hlt].
    unfold SFeqb. simpl SFcompare. cbv iota. value_simpl. symmetry. apply Z.eqb_neq.
    lia.
  - unfold SFeqb. simpl SFcompare.
    destruct (Z.compare_spec ex ey) as [->|Hlt|Hgt].
    + rewrite Pos.compare_cont_spec. simpl.
      pose proof (pow2_pos (ey - emin)) as Hp.
      apply bounded_inv in Vy as [_ [? _]].
      value_simpl.
      destruct (Pos.compare_spec mx my) as [->|Hm|Hm]; symmetry.
      * apply Z.eqb_eq. lia.
      * apply Z.eqb_neq. nia.
      * apply Z.eqb_neq. nia.
    + pose proof (value_lt_exponent mx my ex ey Vx Vy Hlt).
      symmetry. apply Z.eqb_neq. lia.
    + pose proof (value_lt_exponent my mx ey ex Vy Vx Hgt).
      symmetry. apply Z.eqb_neq. lia.
Qed.

Lemma eqb_value (x y : float) :
  nonneg (Prim2SF x) = true → nonneg (Prim2SF y) = true →
  PrimFloat.eqb x y = (value (Prim2SF x) =? value (Prim2SF y)).
Proof.
  intros Hx Hy. rewrite FloatAxioms.eqb_spec. apply SFeqb_value; auto using Prim2SF_valid.
Qed.

(** A multiple of [2^j] with fewer than 54 digits in that unit is a point
    of the grid. *)
Lemma rnd_units_lt (n j : Z) : 0 ≤ n < 2 ^ 53 → 0 ≤ j → rnd (n * 2 ^ j) = n * 2 ^ j.
Proof.
  intros Hn Hj. destruct (decide (n = 0)) as [->|Hne]; [by rewrite Z.mul_0_l, rnd_zero|].
  unfold rnd. rewrite dropped_mul_pow2 by lia.
  assert (digits n ≤ 53) as Hd.
  { pose proof (digits_bounds n ltac:(lia)) as [Hl _].
    destruct (Z_le_gt_dec (digits n) 53) as [|Hgt]; [done|].
    pose proof (pow2_le 53 (digits n - 1) ltac:(lia)). lia. }
  destruct (Z.eqb_spec (Z.max (digits n + j - 53) 0) 0) as [|Hk]; [done|].
  assert (0 < digits n + j - 53) as Hpos by lia.
  replace (Z.max (digits n + j - 53) 0) with (digits n + j - 53) in * by lia.
  assert (∃ k, k = digits n + j - 53) as [k Hkdef] by eauto.
  rewrite <-Hkdef in *.
  replace (n * 2 ^ j) with ((n * 2 ^ (j - k)) * 2 ^ k).
  - by rewrite rnd_at_exact by lia.
  - rewrite <-Z.mul_assoc, <-Z.pow_add_r by lia. do 2 f_equal. lia.
Qed.

Lemma rnd_units (n j : Z) : 0 ≤ n ≤ 2 ^ 53 → 0 ≤ j → rnd (n * 2 ^ j) = n * 2 ^ j.
Proof.
  intros Hn Hj. destruct (decide (n = 2 ^ 53)) as [->|Hne].
  - replace (2 ^ 53 * 2 ^ j) with (2 ^ 52 * 2 ^ (j + 1)).
    + apply rnd_units_lt; [|lia]. split; [by apply Z.pow_nonneg | by apply Z.pow_lt_mono_r].
    + rewrite <-!Z.pow_add_r by lia. f_equal. lia.
  - apply rnd_units_lt; lia.
Qed.

Lemma units_lt_INF (n j : Z) : 0 ≤ n ≤ 2 ^ 53 → 0 ≤ j ≤ 2044 → n * 2 ^ j < INF.
Proof.
  intros Hn Hj. rewrite INF_eq.
  pose proof (pow2_pos j ltac:(lia)) as Hp.
  assert (n * 2 ^ j ≤ 2 ^ 53 * 2 ^ j) as Hle by nia.
  rewrite <-Z.pow_add_r in Hle by lia.
  eapply Z.le_lt_trans; [done|]. apply Z.pow_lt_mono_r; lia.
Qed.

Lemma in_units_zero (j : Z) : in_units j PyFloat.zero 0.
Proof. split; [done|]. by rewrite Z.mul_0_l. Qed.

(** The sum of two numbers of at most [2^53] units together is exact. *)
Lemma in_units_add (j : Z) (a b : float) (n k : Z) :
  0 ≤ j ≤ 2044 → 0 ≤ n → 0 ≤ k → n + k ≤ 2 ^ 53 →
  in_units j a n → in_units j b k → in_units j (PrimFloat.add a b) (n + k).
Proof.
  intros Hj Hn Hk Hsum [Ha Va] [Hb Vb].
  destruct (add_value a b Ha Hb) as [Hab Vab]. split; [done|].
  rewrite Vab, Va, Vb, <-Z.mul_add_distr_r, rnd_units by lia.
  pose proof (units_lt_INF (n + k) j ltac:(lia) Hj). lia.
Qed.

(** Two numbers in the same unit compare equal exactly when they hold the
    same number of units. *)
Lemma in_units_eqb (j : Z) (a b : float) (n k : Z) :
  0 ≤ j → in_units j a n → in_units j b k →
  PrimFloat.eqb a b = true ↔ n = k.
Proof.
  intros Hj [Ha Va] [Hb Vb]. rewrite eqb_value, Va, Vb by done.
  rewrite Z.eqb_eq. pose proof (pow2_pos j Hj). split; [nia | by intros ->].
Qed.
End Binary64Exact.

(** * The totals *)

Section Totals.
Variable py_float : string → option float.
Variables (dl_id_field fl_id_field demand_field distance_field : string).

Abbreviation generate :=
  (generate_binary_coverage_from_dist_matrix
     py_float dl_id_field fl_id_field demand_field distance_field).
Abbreviation reachable := (reachable py_float dl_id_field distance_field).

(** The third loop keeps the serviceable total below the demand total
    when every weight is non-negative and every serviceable demand is
    zero or the weight. *)
Lemma summary_rows_le (l : list Demand.t) (acc : float * float) :
  Forall (λ e, PrimFloat.leb 0 (Demand.demand e) = true ∧
               (Demand.serviceableDemand e = PyFloat.zero ∨
                Demand.serviceableDemand e = Demand.demand e)) l →
  PrimFloat.leb 0 acc.1 = true → PrimFloat.leb acc.1 acc.2 = true →
  PrimFloat.leb (foldl summary_row acc l).1 (foldl summary_row acc l).2 = true.
Proof.
  revert acc. induction l as [|e l IH]; intros acc Hl H0 Hle; simpl; [done|].
  apply Forall_cons in Hl as [[Hw Hs] Hl].
  apply IH; [done | |]; unfold summary_row; simpl.
  - apply Binary64Facts.add_nonneg; [done|]. by destruct Hs as [->| ->].
  - apply Binary64Facts.add_le_mono; [done | done | |].
    + by destruct Hs as [->| ->].
    + destruct Hs as [->| ->]; [done | by apply Binary64Facts.leb_refl_nonneg].
Qed.

(** The third loop computes the same sum twice when every serviceable
    demand is the weight. *)
Lemma summary_rows_eq (l : list Demand.t) (acc : float * float) :
  Forall (λ e, Demand.serviceableDemand e = Demand.demand e) l →
  acc.1 = acc.2 →
  (foldl summary_row acc l).1 = (foldl summary_row acc l).2.
Proof.
  revert acc. induction l as [|e l IH]; intros acc Hl Hacc; simpl; [done|].
  apply Forall_cons in Hl as [Hs Hl].
  apply IH; [done|]. unfold summary_row; simpl. by rewrite Hs, Hacc.
Qed.

Lemma total_weight_nonneg (weight_of : string → Z) (l : odict Demand.t) :
  Forall (λ item : string * Demand.t, (0 < weight_of item.1)%Z) l →
  (0 ≤ total_weight weight_of (dkeys l))%Z.
Proof.
  induction 1 as [|[k e] l Hk _ IH]; simpl in *; [done | lia].
Qed.

(** The third loop on weights that are whole numbers of one unit, with at
    most [2^53] units in all: both sums are exact, and they compare equal
    exactly when no unit out of reach was met. *)
Lemma summary_rows_exact (j : Z) (weight_of : string → Z) (R : string → Prop)
    (l : odict Demand.t) (acc : float * float) (ns nd : Z) :
  (0 ≤ j ≤ 2044)%Z →
  Forall (λ item : string * Demand.t,
            (0 < weight_of item.1)%Z ∧
            in_units j (Demand.demand item.2) (weight_of item.1) ∧
            ((R item.1 ∧ Demand.serviceableDemand item.2 = Demand.demand item.2) ∨
             (¬ R item.1 ∧ Demand.serviceableDemand item.2 = PyFloat.zero))) l →
  in_units j acc.1 ns → in_units j acc.2 nd → (0 ≤ ns ≤ nd)%Z →
  (nd + total_weight weight_of (dkeys l) ≤ 2 ^ 53)%Z →
  PrimFloat.eqb (foldl summary_row acc (dvalues l)).1
                (foldl summary_row acc (dvalues l)).2 = true ↔
  ns = nd ∧ Forall (λ item : string * Demand.t, R item.1) l.
Proof.
  intros Hj Hl. revert acc ns nd.
  induction Hl as [|[k e] l (Hpos & Hw & Hs) Hl IH]; intros acc ns nd Hns Hnd Hle Hsum.
  - simpl. rewrite (Binary64Exact.in_units_eqb j _ _ ns nd) by (done || lia).
    split; [by intros -> | by intros [-> _]].
  - simpl in Hpos, Hw, Hs, Hsum.
    change (dvalues ((k, e) :: l)) with (e :: dvalues l).
    change (foldl summary_row acc (e :: dvalues l))
      with (foldl summary_row (summary_row acc e) (dvalues l)).
    pose proof (total_weight_nonneg weight_of l) as Htot.
    rewrite Forall_forall in Htot.
    assert (0 ≤ total_weight weight_of (dkeys l))%Z as Hrest.
    { apply Htot. intros item Hin. rewrite Forall_forall in Hl. by apply Hl. }
    assert (in_units j (summary_row acc e).2 (nd + weight_of k)) as Hnd'
      by (apply Binary64Exact.in_units_add; (done || lia)).
    destruct Hs as [[Hr Hs]|[Hr Hs]].
    + rewrite (IH (summary_row acc e) (ns + weight_of k)%Z (nd + weight_of k)%Z);
        [|unfold summary_row; simpl; rewrite Hs;
          apply Binary64Exact.in_units_add; (done || lia)
         |done|lia|lia].
      rewrite Forall_cons. simpl. split; [intros [? ?]|intros [? [? ?]]];
        split_and!; (done || lia).
    + rewrite (IH (summary_row acc e) (ns + 0)%Z (nd + weight_of k)%Z);
        [|unfold summary_row; simpl; rewrite Hs;
          apply Binary64Exact.in_units_add;
            [done | lia | lia | lia | done | apply Binary64Exact.in_units_zero]
         |done|lia|lia].
      rewrite Forall_cons. simpl. split; [intros [? ?]; lia | by intros [? [? ?]]].
Qed.

(** C2, as the code has it.  In the model that the builder returns:
    [totalServiceableDemand <= totalDemand] whenever every stored demand
    weight is [>= 0.0]; when every demand unit has a row within the
    threshold, the two totals compare equal ([==]) unless [totalDemand] is
    NaN; and when the weights are positive whole numbers of one unit
    [2^j * 2^emin] (whole numbers, for [j = 1074]) whose exact sum is at
    most [2^53] units, so that no sum rounds, the two totals compare equal
    if and only if every demand unit has a row within the threshold.
    (Outside these conditions the claim fails: see
    [totals_counterexamples].) *)
Theorem totals_ordered_and_equal_iff_all_reachable rows thr name w w' m :
  generate rows thr name w = (w', Ok m) →
  ((∀ d e, dget (demand m) d = Some e → PrimFloat.leb 0 (Demand.demand e) = true) →
   PrimFloat.leb (totalServiceableDemand m) (totalDemand m) = true) ∧
  ((∀ d, d ∈ dkeys (demand m) → reachable thr rows d) →
   PrimFloat.is_nan (totalDemand m) = false →
   PrimFloat.eqb (totalServiceableDemand m) (totalDemand m) = true) ∧
  (∀ (j : Z) (weight_of : string → Z),
     (0 ≤ j ≤ 2044)%Z →
     (∀ d e, dget (demand m) d = Some e →
        (0 < weight_of d)%Z ∧ in_units j (Demand.demand e) (weight_of d)) →
     (total_weight weight_of (dkeys (demand m)) ≤ 2 ^ 53)%Z →
     (PrimFloat.eqb (totalServiceableDemand m) (totalDemand m) = true ↔
      ∀ d, d ∈ dkeys (demand m) → reachable thr rows d)).
Proof.
  intros [Hbuild _]%generate_Ok.
  apply build_coverage_Ok in Hbuild as (Hnd & _ & Hentry & Htotals).
  assert (∀ e, e ∈ dvalues (demand m) → ∃ d, dget (demand m) d = Some e) as Hval.
  { intros e [d Hin]%dvalues_elem_of. exists d. by apply elem_of_dget_NoDup. }
  assert (totalServiceableDemand m =
            (foldl summary_row (PyFloat.zero, PyFloat.zero) (dvalues (demand m))).1) as ->
    by (by rewrite <-Htotals).
  assert (totalDemand m =
            (foldl summary_row (PyFloat.zero, PyFloat.zero) (dvalues (demand m))).2) as ->
    by (by rewrite <-Htotals).
  split_and!.
  - intros Hweights. apply summary_rows_le; [|done..].
    apply Forall_forall. intros e [d He]%Hval. split; [by eapply Hweights|].
    destruct (Hentry d e He) as (i & r & cell & weight & _ & _ & _ & Hafter).
    destruct Hafter as (_ & Hd & [[_ Hs]|[_ Hs]] & _); simpl in *.
    + right. congruence.
    + by left.
  - intros Hreach Hnan.
    rewrite (summary_rows_eq (dvalues (demand m)) (PyFloat.zero, PyFloat.zero)); [|..|done].
    + unfold PrimFloat.is_nan in Hnan. by apply negb_false_iff in Hnan.
    + apply Forall_forall. intros e [d He]%Hval.
      destruct (Hentry d e He) as (i & r & cell & weight & _ & _ & _ & Hafter).
      destruct Hafter as (_ & Hd & [[_ Hs]|[Hn _]] & _); simpl in *.
      * congruence.
      * destruct Hn. apply Hreach, elem_of_dkeys. by eexists.
  - intros j weight_of Hj Hweights Hsum.
    rewrite (summary_rows_exact j weight_of (reachable thr rows) (demand m)
               (PyFloat.zero, PyFloat.zero) 0 0 Hj);
      [| |apply Binary64Exact.in_units_zero..|lia|lia].
    + rewrite Forall_forall. split.
      * intros [_ Hall] d [e He]%elem_of_dkeys.
        by apply (Hall (d, e)), dget_Some_elem_of.
      * intros Hall. split; [done|]. intros [d e] Hin. simpl.
        apply Hall, elem_of_dkeys. by eapply elem_of_dget.
    + apply Forall_forall. intros [d e] Hin. simpl.
      apply elem_of_dget_NoDup in Hin; [|done].
      destruct (Hweights d e Hin) as [Hpos Hw]. split_and!; [done..|].
      destruct (Hentry d e Hin) as (i & r & cell & weight & _ & _ & _ & Hafter).
      destruct Hafter as (_ & Hd & [[Hr Hs]|[Hn Hs]] & _); simpl in *.
      * left. split; [done | congruence].
      * by right.
Qed.
End Totals.

Lemma totals_ordered_and_equal_iff_all_reachable_witness :
  PrimFloat.leb (totalServiceableDemand example_model) (totalDemand example_model) = true ∧
  PrimFloat.eqb (totalServiceableDemand example_model) (totalDemand example_model) = true ∧
  (PrimFloat.eqb (totalServiceableDemand example_model) (totalDemand example_model) = true ↔
   ∀ d, d ∈ dkeys (demand example_model) →
        reachable PyFloat.of_decimal "demand_id" "distance" 5000 example_rows d).
Proof.
  destruct (totals_ordered_and_equal_iff_all_reachable PyFloat.of_decimal
              "demand_id" "facility_id" "demand" "distance"
              example_rows 5000 None w0 w1 example_model example_run)
    as (Hle & Heq & Hiff).
  assert (∀ d, d ∈ dkeys (demand example_model) →
               reachable PyFloat.of_decimal "demand_id" "distance" 5000 example_rows d)
    as Hreach.
  { intros d Hd.
    apply elem_of_cons in Hd as [->|Hd]; [|apply list_elem_of_singleton in Hd as ->].
    - exists (mk_row "F1" "D1" "10" "4000"). split_and!; [left | reflexivity |].
      exists "4000", 4000%float. split_and!; reflexivity.
    - exists (mk_row "F1" "D2" "5" "4000"). split_and!; [do 2 right; left | reflexivity |].
      exists "4000", 4000%float. split_and!; reflexivity. }
  split_and!.
  - apply Hle. intros d e He%dget_Some_elem_of.
    apply elem_of_cons in He as [[= -> ->]|He]; [reflexivity|].
    apply list_elem_of_singleton in He as [= -> ->]. reflexivity.
  - apply Heq; [done | reflexivity].
  - apply (Hiff 1074%Z (λ d, if decide (d = "D1") then 10%Z else 5%Z)).
    + lia.
    + intros d e He%dget_Some_elem_of.
      apply elem_of_cons in He as [[= -> ->]|He];
        [|apply list_elem_of_singleton in He as [= -> ->]];
        (split; [reflexivity | split; vm_compute; reflexivity]).
    + vm_compute. discriminate.
Defined.

(** Four runs against the claim as stated.  A negative weight out of reach
    puts [totalServiceableDemand] above [totalDemand]; a zero weight out of
    reach, or a weight absorbed by rounding, leaves the totals equal although
    a demand unit has no facility within the threshold; and with a weight
    that is not a number the totals do not compare equal although every
    demand unit is within reach. *)
Lemma totals_counterexamples :
  (∃ m, generate_default negative_rows 5000 w0 = (w1, Ok m) ∧
        PrimFloat.leb (totalServiceableDemand m) (totalDemand m) = false) ∧
  (∃ m, generate_default zero_rows 5000 w0 = (w1, Ok m) ∧
        PrimFloat.eqb (totalServiceableDemand m) (totalDemand m) = true ∧
        ¬ reachable PyFloat.of_decimal "demand_id" "distance" 5000 zero_rows "D1") ∧
  (∃ m, generate_default absorbed_rows 5000 w0 = (w1, Ok m) ∧
        PrimFloat.eqb (totalServiceableDemand m) (totalDemand m) = true ∧
        ¬ reachable PyFloat.of_decimal "demand_id" "distance" 5000 absorbed_rows "D2") ∧
  (∃ m, generate_binary_coverage_from_dist_matrix of_decimal_or_nan
          "demand_id" "facility_id" "demand" "distance" nan_rows 5000 None w0 = (w1, Ok m) ∧
        (∀ d, d ∈ dkeys (demand m) →
              reachable of_decimal_or_nan "demand_id" "distance" 5000 nan_rows d) ∧
        PrimFloat.leb (totalServiceableDemand m) (totalDemand m) = false ∧
        PrimFloat.eqb (totalServiceableDemand m) (totalDemand m) = false).
Proof.
  split_and!.
  - exists (mk_model [("D1", mk_entry (-5) 0 [])] (-5) 0 {[ "F1" ]}).
    split; vm_compute; reflexivity.
  - exists (mk_model [("D1", mk_entry 0 0 [])] 0 0 {[ "F1" ]}).
    split_and!; [vm_compute; reflexivity | reflexivity |].
    intros (r & Hin & _ & cell & x & Hcell & Hx & Hle).
    apply list_elem_of_singleton in Hin as ->.
    vm_compute in Hcell. injection Hcell as <-.
    vm_compute in Hx. injection Hx as <-. vm_compute in Hle. discriminate.
  - exists (mk_model [("D1", mk_entry 9007199254740992 9007199254740992 ["F1"]);
                      ("D2", mk_entry 1 0 [])]
              9007199254740992 9007199254740992 {[ "F1" ]}).
    split_and!; [vm_compute; reflexivity | reflexivity |].
    intros (r & Hin & Hk & cell & x & Hcell & Hx & Hle).
    apply elem_of_cons in Hin as [->|Hin].
    { vm_compute in Hk. discriminate. }
    apply list_elem_of_singleton in Hin as ->.
    vm_compute in Hcell. injection Hcell as <-.
    vm_compute in Hx. injection Hx as <-. vm_compute in Hle. discriminate.
  - exists (mk_model [("D1", mk_entry PrimFloat.nan PrimFloat.nan ["F1"])]
              PrimFloat.nan PrimFloat.nan {[ "F1" ]}).
    split_and!; [vm_compute; reflexivity | | reflexivity | reflexivity].
    intros d Hd. apply list_elem_of_singleton in Hd as ->.
    exists (mk_row "F1" "D1" "nan" "4000"). split_and!; [left | reflexivity |].
    exists "4000", 4000%float. split_and!; reflexivity.
Qed.

(** * The result summarizer and the orchestration *)

Lemma not_disjoint_covers_unit (chosen : gset string) (e : Demand.t) (covering : gmap string Z) :
  Demand.coverage e !! "facility" = Some covering →
  ¬ chosen ## dom covering ↔ covers_unit chosen e.
Proof.
  intros Hcov. unfold covers_unit, coverage_set. rewrite Hcov. simpl.
  by rewrite disjoint_intersection_L.
Qed.

(** The loop of the summarizer adds up, in dictionary order, the weights of
    the demand units that the chosen facilities cover. *)
Lemma covered_rows_Ok chosen (d : odict Demand.t) acc total :
  for_each (covered_row chosen) d acc = Ok total →
  total = foldl PrimFloat.add acc
            (Demand.demand <$> filter (covers_unit chosen) (dvalues d)).
Proof.
  revert acc. induction d as [|[k e] d IH]; intros acc Hrun; simpl in Hrun.
  - by injection Hrun as <-.
  - apply bind_Ok in Hrun as (acc1 & Hrow & Hrest). apply IH in Hrest as ->.
    unfold covered_row in Hrow.
    apply bind_Ok in Hrow as (covering & Hcov%getitem_Ok & Hrow).
    unfold dvalues. simpl. case_bool_decide as Hdisj; simpl in Hrow; injection Hrow as <-.
    + rewrite filter_cons_False; [done|].
      intros Hc. by apply (not_disjoint_covers_unit _ _ _ Hcov) in Hc.
    + rewrite filter_cons_True; [done|].
      by apply (not_disjoint_covers_unit _ _ _ Hcov).
Qed.

Lemma check_required_fields_missing fields (item : row) field w :
  field ∈ fields → field ∉ dom item →
  ∃ first, first ∈ fields ∧ (first ∉ dom item) ∧
    check_required_fields fields item w =
      (World (stdout w ++ [missing_field_message first]) (log w), Raise (SystemExit 0)).
Proof.
  induction fields as [|f fields IH]; [by intros ?%elem_of_nil|].
  intros Hin Hmiss. simpl. case_decide as Hf.
  - exists f. split_and!; [left | done | done].
  - apply elem_of_cons in Hin as [->|Hin]; [done|].
    destruct (IH Hin Hmiss) as (first & Hfirst & Hfirst' & Hrun).
    exists first. split_and!; [by right | done | done].
Qed.

Lemma check_required_fields_present fields (item : row) w :
  (∀ field, field ∈ fields → field ∈ dom item) →
  check_required_fields fields item w = (w, Ok tt).
Proof.
  induction fields as [|f fields IH]; intros Hall; simpl; [done|].
  rewrite decide_False by (intros Hf; apply Hf, Hall; left).
  apply IH. intros field Hin. apply Hall. by right.
Qed.

Lemma complete_row_has_default_fields (f d dw dist : string) (field : string) :
  field ∈ default_list_field_req → field ∈ dom (mk_row f d dw dist).
Proof.
  unfold default_list_field_req, mk_row. intros Hin.
  repeat (apply elem_of_cons in Hin as [->|Hin]);
    [| | | |by apply elem_of_nil in Hin]; set_solver.
Qed.

Section OrchestrationClaims.
Variable py_float : string → option float.
Variable solve_mclp : coverage_model → Z → string → M (list string).

(** Past the field check, the run is the builder, the solver and the
    summarizer in sequence. *)
Lemma binary_mclp_distance_matrix_summarizes
    rows service_dist num_facility fields name w w' w'' item m ids :
  rows !! 1 = Some item →
  (∀ field, field ∈ fields → field ∈ dom item) →
  generate_binary_coverage_from_dist_matrix py_float
    "demand_id" "facility_id" "demand" "distance"
    rows service_dist (Some name) w = (w', Ok m) →
  solve_mclp m num_facility name w' = (w'', Ok ids) →
  binary_mclp_distance_matrix py_float solve_mclp
    rows service_dist num_facility fields name w =
    (w'', summarize_coverage m (list_to_set ids) num_facility).
Proof.
  intros Hitem Hfields Hgen Hsolve.
  unfold binary_mclp_distance_matrix, list_getitem, lift, mbind, M_bind.
  rewrite Hitem, check_required_fields_present by done.
  rewrite Hgen, Hsolve. done.
Qed.

(** C9. When the sample row (the row at index 1) lacks a required field, the
    run prints the line [Error: this field <name> not found in the distance
    csv] for the first such field and ends with [SystemExit(0)], the exit
    status of a successful process.  Nothing else is printed and the log is
    untouched: the builder, whose first action is to log a message, has not
    been entered, and the outcome does not depend on the solver. *)
Theorem missing_required_field_exits_with_status_zero
    rows service_dist num_facility fields name w item field :
  rows !! 1 = Some item → field ∈ fields → field ∉ dom item →
  ∃ first, first ∈ fields ∧ (first ∉ dom item) ∧
    binary_mclp_distance_matrix py_float solve_mclp
      rows service_dist num_facility fields name w =
      (World (stdout w ++
                ["Error: this field " ++ first ++ " not found in the distance csv"])
             (log w),
       Raise (SystemExit 0)).
Proof.
  intros Hitem Hin Hmiss.
  destruct (check_required_fields_missing fields item field w Hin Hmiss)
    as (first & Hfirst & Hfirst' & Hrun).
  exists first. split_and!; [done..|].
  unfold binary_mclp_distance_matrix, list_getitem, lift, mbind, M_bind.
  by rewrite Hitem, Hrun.
Qed.

(** C10. The sample row is [dict_pairwise_distance[1]]: with fewer than two
    rows the run ends with [IndexError] at once, with nothing printed or
    logged and no field checked, whatever columns the rows have. *)
Theorem fewer_than_two_rows_raises_IndexError
    rows service_dist num_facility fields name w :
  length rows < 2 →
  binary_mclp_distance_matrix py_float solve_mclp
    rows service_dist num_facility fields name w = (w, Raise IndexError).
Proof.
  intros Hlen.
  unfold binary_mclp_distance_matrix, list_getitem, lift, mbind, M_bind.
  by rewrite (lookup_ge_None_2 rows 1) by lia.
Qed.
End OrchestrationClaims.

Lemma missing_required_field_exits_with_status_zero_witness :
  binary_mclp_distance_matrix PyFloat.of_decimal first_ids
    rows_without_distance 5000 1 default_list_field_req "facility" w0 =
    (World ["Error: this field distance not found in the distance csv"] [],
     Raise (SystemExit 0)).
Proof.
  assert (rows_without_distance !! 1 =
            Some ({[ "facility_id" := "F2"; "demand_id" := "D1"; "demand" := "10" ]} : row))
    as Hitem by reflexivity.
  assert ("distance" ∈ default_list_field_req) as Hfield
    by (unfold default_list_field_req; do 3 right; left).
  assert ("distance" ∉
            dom ({[ "facility_id" := "F2"; "demand_id" := "D1"; "demand" := "10" ]} : row))
    as Hnone by (apply not_elem_of_dom; reflexivity).
  destruct (missing_required_field_exits_with_status_zero PyFloat.of_decimal first_ids
              rows_without_distance 5000 1 default_list_field_req "facility" w0
              _ "distance" Hitem Hfield Hnone)
    as (first & Hin & Hmiss & Hrun).
  unfold default_list_field_req in Hin.
  repeat (apply elem_of_cons in Hin as [->|Hin]);
    [| | | exact Hrun | by apply elem_of_nil in Hin];
    exfalso; apply Hmiss, elem_of_dom; eexists; reflexivity.
Defined.

Lemma fewer_than_two_rows_raises_IndexError_witness :
  binary_mclp_distance_matrix PyFloat.of_decimal first_ids
    [mk_row "F1" "D1" "10" "4000"] 5000 1 default_list_field_req "facility" w0 =
    (w0, Raise IndexError).
Proof.
  apply (fewer_than_two_rows_raises_IndexError PyFloat.of_decimal first_ids).
  simpl. lia.
Defined.

(** * The worked example of the specification *)

(** C8, as the code has it.  For the rows
    [(F1,D1,10,4000); (F2,D1,10,6000); (F1,D2,5,4000)] and the threshold
    [5000] the builder returns the model of the example; against it the
    chosen set [{F1}] covers a demand of [15], which is [100] percent, and
    the chosen set [{F2}] covers a demand of [0], which is [0] percent: [F2]
    is [6000] away from [D1], beyond the threshold, and in no coverage set. *)
Theorem worked_example :
  ∃ m, generate_default example_rows 5000 w0 = (w1, Ok m) ∧
    entry_view <$> demand m = [ ("D1", 10%float, 10%float, ["F1"]);
                                 ("D2", 5%float, 5%float, ["F1"]) ] ∧
    totalDemand m = 15%float ∧ totalServiceableDemand m = 15%float ∧
    total_demand_covered m {[ "F1" ]} = Ok 15%float ∧
    (∃ r, summarize_coverage m {[ "F1" ]} 1 = Ok r ∧
          percent_demand_coverage r = 100%float) ∧
    total_demand_covered m {[ "F2" ]} = Ok 0%float ∧
    (∃ r, summarize_coverage m {[ "F2" ]} 1 = Ok r ∧
          percent_demand_coverage r = 0%float).
Proof.
  exists example_model. split; [apply example_run|].
  split_and!; try (eexists; split); vm_compute; reflexivity.
Qed.

(** Against the model of the example the chosen set [{F2}] does not cover a
    demand of [10], and the percentage is not [100 * 10 / 15]. *)
Lemma worked_example_F2_covers_nothing :
  ¬ (total_demand_covered example_model {[ "F2" ]} = Ok 10%float) ∧
  ¬ (∃ r, summarize_coverage example_model {[ "F2" ]} 1 = Ok r ∧
          percent_demand_coverage r = PrimFloat.div (PrimFloat.mul 100 10) 15).
Proof.
  split.
  - vm_compute. discriminate.
  - intros (r & Hr & Hp). vm_compute in Hr. injection Hr as <-.
    vm_compute in Hp. discriminate.
Qed.

(** * Further properties of the coverage builder *)

Lemma for_each_app {S A : Type} (f : S → A → result S) (l1 l2 : list A) (s : S) :
  for_each f (l1 ++ l2) s = for_each f l1 s ≫= for_each f l2.
Proof.
  revert s. induction l1 as [|x l1 IH]; intros s; simpl; [done|].
  destruct (f s x) as [s'|e]; simpl; [apply IH | done].
Qed.

Lemma empty_state_keys (k : string) :
  k ∈ (∅ : gset string) ↔ k ∈ dkeys ([] : odict Demand.t).
Proof. set_solver. Qed.

Section BuilderMore.
Variable py_float : string → option float.
Variables (dl_id_field fl_id_field demand_field distance_field : string).

Abbreviation init_row := (init_row py_float dl_id_field fl_id_field demand_field).
Abbreviation cover_row := (cover_row py_float dl_id_field fl_id_field distance_field).
Abbreviation build_coverage :=
  (build_coverage py_float dl_id_field fl_id_field demand_field distance_field).
Abbreviation generate :=
  (generate_binary_coverage_from_dist_matrix
     py_float dl_id_field fl_id_field demand_field distance_field).
Abbreviation within := (within py_float distance_field).
Abbreviation covered_by := (covered_by py_float dl_id_field fl_id_field distance_field).
Abbreviation reachable := (reachable py_float dl_id_field distance_field).

(** The first loop collects the facility ids of the rows. *)
Lemma init_rows_facilities name rows d sf sd d' sf' sd' :
  for_each (init_row name) rows (d, sf, sd) = Ok (d', sf', sd') →
  ∀ f, f ∈ sf' ↔ f ∈ sf ∨ ∃ r, r ∈ rows ∧ r !! fl_id_field = Some f.
Proof.
  revert d sf sd. induction rows as [|r rows IH]; intros d sf sd Hrun f; simpl in Hrun.
  - injection Hrun as -> -> ->. split; [by left|].
    by intros [?|(r & ?%elem_of_nil & _)].
  - apply bind_Ok in Hrun as ([[d1 sf1] sd1] & Hrow & Hrest).
    rewrite (IH _ _ _ Hrest f).
    assert (∃ f0, r !! fl_id_field = Some f0 ∧ sf1 = sf ∪ {[f0]}) as (f0 & Hf0 & ->).
    { apply init_row_inv in Hrow as (f0 & k & Hf0 & _ & [[_ [= _ -> _]]|(_ & c & x & _ & _ & [= _ -> _])]);
        by exists f0. }
    rewrite elem_of_union, elem_of_singleton. split.
    + intros [[?| ->]|(r' & Hin & Hf)]; [by left | |].
      * right. exists r. split; [left | done].
      * right. exists r'. split; [by right | done].
    + intros [?|(r' & [->|Hin]%elem_of_cons & Hf)].
      * left. by left.
      * left. right. congruence.
      * right. by exists r'.
Qed.

(** Every row that the second loop passes has a distance that parses. *)
Lemma cover_rows_distances name thr rows d d' :
  for_each (cover_row name thr) rows d = Ok d' →
  ∀ r, r ∈ rows → ∃ cell x, r !! distance_field = Some cell ∧ py_float cell = Some x.
Proof.
  revert d. induction rows as [|r rows IH]; intros d Hrun r' Hin; simpl in Hrun.
  - by apply elem_of_nil in Hin.
  - apply bind_Ok in Hrun as (d1 & Hrow & Hrest).
    apply elem_of_cons in Hin as [->|Hin]; [|by eapply IH].
    unfold cover_row in Hrow.
    apply bind_Ok in Hrow as (cell & Hcell%getitem_Ok & Hrow).
    apply bind_Ok in Hrow as (x & Hx%float_of_Ok & _). by exists cell, x.
Qed.

(** What a returned model tells about the rows and the facility list. *)
Lemma build_coverage_rows rows thr name m :
  build_coverage rows thr name = Ok m →
  (∀ r, r ∈ rows →
     is_Some (r !! fl_id_field) ∧ is_Some (r !! dl_id_field) ∧
     ∃ cell x, r !! distance_field = Some cell ∧ py_float cell = Some x) ∧
  ∃ sf : gset string,
    facilities m = {[ name := elements sf ]} ∧
    ∀ f, f ∈ sf ↔ ∃ r, r ∈ rows ∧ r !! fl_id_field = Some f.
Proof.
  unfold build_coverage. intros H.
  apply bind_Ok in H as ([[d1 sf] sd] & Hinit & H).
  apply bind_Ok in H as (d2 & Hcover & [= <-]). simpl.
  pose proof empty_state_keys as Hempty.
  pose proof (init_rows_facilities _ _ _ _ _ _ _ _ Hinit) as Hsf.
  pose proof (cover_rows_distances _ _ _ _ _ Hcover) as Hdist.
  apply init_rows_inv in Hinit as (_ & _ & _ & _ & Hfields); [|done].
  split.
  - intros r Hr. destruct (Hfields r Hr) as [? ?]. split_and!; [done | done | by apply Hdist].
  - exists sf. split; [done|]. intros f. rewrite Hsf. split; [|by right].
    intros [Hin|?]; [|done]. by apply not_elem_of_empty in Hin.
Qed.

(** X1. The facility list of the returned model, stored under the facility
    variable name, holds every facility id of the rows exactly once. *)
Theorem facilities_are_row_facility_ids rows thr name w w' m :
  generate_binary_coverage_from_dist_matrix
    py_float dl_id_field fl_id_field demand_field distance_field
    rows thr name w = (w', Ok m) →
  ∃ l, facilities m = {[ default "facility" name := l ]} ∧
       NoDup l ∧
       ∀ f, f ∈ l ↔ ∃ r, r ∈ rows ∧ r !! fl_id_field = Some f.
Proof.
  intros [Hbuild _]%generate_Ok.
  apply build_coverage_rows in Hbuild as (_ & sf & Hfac & Hsf).
  exists (elements sf). split_and!; [done | apply NoDup_elements |].
  intros f. by rewrite elem_of_elements.
Qed.

(** X2. Every entry of the returned model has area [0] and a coverage
    dictionary with exactly one key, the facility variable name. *)
Theorem entry_has_one_coverage_key rows thr name w w' m :
  generate rows thr name w = (w', Ok m) →
  ∀ d e, dget (demand m) d = Some e →
    Demand.area e = 0%Z ∧ dom (Demand.coverage e) = {[ default "facility" name ]}.
Proof.
  intros [Hbuild _]%generate_Ok d e He.
  apply build_coverage_Ok in Hbuild as (_ & _ & Hentry & _).
  destruct (Hentry d e He) as (i & r & cell & weight & _ & _ & _ & Hafter).
  destruct Hafter as (Harea & _ & _ & Hother & Hname). simpl in *.
  split; [done|]. apply set_eq. intros n.
  rewrite elem_of_dom, elem_of_singleton. split.
  - intros Hn. destruct (decide (n = default "facility" name)) as [?|Hne]; [done|].
    rewrite Hother, lookup_singleton_ne in Hn by done. by destruct Hn.
  - intros ->. destruct (Hname ∅) as (cov' & -> & _); [apply lookup_singleton_eq|].
    by eexists.
Qed.

(** X3. In the returned model an entry whose coverage set is not empty has
    its full weight as serviceable demand, and an entry whose coverage set
    is empty has serviceable demand [0.0]. *)
Theorem serviceable_iff_coverage_nonempty rows thr name w w' m :
  generate rows thr name w = (w', Ok m) →
  ∀ d e cov, dget (demand m) d = Some e →
    Demand.coverage e !! default "facility" name = Some cov →
    (cov ≠ ∅ → Demand.serviceableDemand e = Demand.demand e) ∧
    (cov = ∅ → Demand.serviceableDemand e = PyFloat.zero).
Proof.
  intros [Hbuild _]%generate_Ok d e cov He Hcov.
  pose proof Hbuild as (Hrows & _)%build_coverage_rows.
  apply build_coverage_Ok in Hbuild as (_ & _ & Hentry & _).
  destruct (Hentry d e He) as (i & r & cell & weight & _ & _ & _ & Hafter).
  destruct Hafter as (_ & Hd & Hs & _ & Hname). simpl in *.
  destruct (Hname ∅) as (cov' & Hcov' & Hdom); [apply lookup_singleton_eq|].
  assert (cov' = cov) as -> by congruence.
  split.
  - intros Hne. destruct Hs as [[_ Hs]|[Hn _]]; [congruence|].
    destruct Hn. apply map_choose in Hne as (f & one & Hf).
    assert (f ∈ dom cov) as Hin by (apply elem_of_dom; by eexists).
    apply Hdom in Hin as [Hin|(r' & Hr' & Hk & _ & Hw)]; [by rewrite dom_empty in Hin|].
    by exists r'.
  - intros ->. destruct Hs as [[(r' & Hr' & Hk & Hw) _]|[_ Hs]]; [|done].
    destruct (Hrows r' Hr') as ([f Hf] & _).
    assert (f ∈ dom (∅ : gmap string Z)) as Hin by (apply Hdom; right; by exists r').
    by rewrite dom_empty in Hin.
Qed.

(** The first loop runs through when every row has its two ids and the
    rows that bring a new demand id have a weight that parses. *)
Lemma init_rows_total_new_ids name rows d sf (sd : gset string) :
  (∀ i r, rows !! i = Some r →
     is_Some (r !! fl_id_field) ∧
     ∃ k, r !! dl_id_field = Some k ∧
          (k ∉ sd →
           (∀ j r', j < i → rows !! j = Some r' → r' !! dl_id_field ≠ Some k) →
           ∃ cell x, r !! demand_field = Some cell ∧ py_float cell = Some x)) →
  ∃ st', for_each (init_row name) rows (d, sf, sd) = Ok st'.
Proof.
  revert d sf sd. induction rows as [|r rows IH]; intros d sf sd Hrows.
  - by eexists.
  - change (for_each ?f (r :: rows) ?s) with (f s r ≫= for_each f rows).
    destruct (Hrows 0 r eq_refl) as ([f Hf] & k & Hk & Hparse).
    assert (∃ d1 sf1 sd1, init_row name (d, sf, sd) r = Ok (d1, sf1, sd1) ∧
              (∀ k', k' ∈ sd1 ↔ k' ∈ sd ∨ k' = k)) as (d1 & sf1 & sd1 & Hrow & Hsd1).
    { unfold init_row, getitem, float_of. rewrite Hf, Hk. simpl. case_decide as Hin.
      - destruct Hparse as (cell & x & Hcell & Hx); [done | intros; lia |].
        rewrite Hcell. simpl. rewrite Hx. simpl.
        eexists _, _, _. split; [done|]. intros k'.
        by rewrite elem_of_union, elem_of_singleton.
      - eexists _, _, _. split; [done|]. intros k'. split; [by left|].
        by intros [?| ->]. }
    rewrite Hrow. simpl. apply IH. intros i r' Hr'.
    destruct (Hrows (S i) r' Hr') as (Hf' & k' & Hk' & Hparse').
    split; [done|]. exists k'. split; [done|]. intros Hnew Hmin.
    apply Hparse'.
    + intros Hin. apply Hnew, Hsd1. by left.
    + intros [|j] r'' Hj; simpl.
      * intros [= <-]. intros Heq. apply Hnew, Hsd1. right. congruence.
      * intros Hj'. eapply Hmin; [|done]. lia.
Qed.

(** The second loop runs through on rows with a facility id and a distance
    that parses, when every demand id has an entry with a coverage set. *)
Lemma cover_rows_total_entries name thr rows d :
  (∀ r, r ∈ rows →
     is_Some (r !! fl_id_field) ∧
     (∃ k, r !! dl_id_field = Some k ∧ k ∈ dkeys d) ∧
     ∃ cell x, r !! distance_field = Some cell ∧ py_float cell = Some x) →
  (∀ k e, dget d k = Some e → is_Some (Demand.coverage e !! name)) →
  ∃ d', for_each (cover_row name thr) rows d = Ok d'.
Proof.
  revert d. induction rows as [|r rows IH]; intros d Hrows Hcov; simpl.
  - by eexists.
  - destruct (Hrows r) as ([f Hf] & (k & Hk & [e He]%elem_of_dkeys) & cell & x & Hcell & Hx);
      [left|].
    destruct (Hcov k e He) as [cov Hc].
    assert (∃ d1, cover_row name thr d r = Ok d1) as [d1 Hd1].
    { unfold cover_row, getitem, dgetitem, float_of.
      rewrite Hcell. simpl. rewrite Hx. simpl.
      destruct (PrimFloat.leb x thr); [|by eexists].
      rewrite Hk. simpl. rewrite He. simpl. rewrite dget_dset_eq. simpl.
      rewrite Hc. simpl. rewrite Hf. simpl. by eexists. }
    rewrite Hd1. simpl. apply IH.
    + intros r' Hr'. destruct (Hrows r') as (Hf' & (k' & Hk' & Hin) & Hdist); [by right|].
      split_and!; [done | | done]. exists k'. split; [done|].
      apply cover_row_inv in Hd1 as [[_ ->]|(_ & k0 & f0 & e0 & c & _ & _ & He0 & _ & ->)];
        [done|].
      rewrite dkeys_dset_Some; [done | by eexists].
    + intros k' e' He'.
      apply cover_row_inv in Hd1 as [[_ ->]|(_ & k0 & f0 & e0 & c & _ & _ & He0 & _ & ->)];
        [by eapply Hcov|].
      rewrite dget_dset in He'. case_decide; [|by eapply Hcov].
      injection He' as <-. simpl. rewrite lookup_insert_eq. by eexists.
Qed.

(** X4. The builder returns a model exactly on the rows where every row
    carries a facility id, a demand id and a distance that parses, and the
    first row of every demand id carries a weight that parses.  (The
    weight cells of later rows of an id are never read.) *)
Theorem builder_returns_iff rows thr name w :
  (∃ w' m, generate rows thr name w = (w', Ok m)) ↔
  builder_accepts py_float dl_id_field fl_id_field demand_field distance_field rows.
Proof.
  split.
  - intros (w' & m & [Hbuild _]%generate_Ok) i r Hr.
    pose proof Hbuild as (Hrows & _)%build_coverage_rows.
    apply build_coverage_Ok in Hbuild as (_ & Hkeys & Hentry & _).
    destruct (Hrows r) as (Hf & [k Hk] & Hdist); [by eapply list_elem_of_lookup_2|].
    split_and!; [done | | done]. exists k. split; [done|]. intros Hfirst.
    assert (k ∈ dkeys (demand m)) as [e He]%elem_of_dkeys.
    { apply Hkeys. exists r. split; [by eapply list_elem_of_lookup_2 | done]. }
    destruct (Hentry k e He) as (i' & r' & cell & x & Hfirst' & Hcell & Hx & _).
    destruct (first_row_for_unique _ _ _ _ _ _ _ Hfirst Hfirst') as [-> ->].
    by exists cell, x.
  - intros Hacc.
    destruct (init_rows_total_new_ids (default "facility" name) rows [] ∅ ∅)
      as [[[d1 sf] sd] Hinit].
    { intros i r Hr. destruct (Hacc i r Hr) as (Hf & (k & Hk & Hparse) & _).
      split; [done|]. exists k. split; [done|]. intros _ Hmin. by apply Hparse. }
    pose proof empty_state_keys as Hempty.
    pose proof Hinit as (_ & Hkeys & _ & Hfresh & _)%init_rows_inv; [|done].
    destruct (cover_rows_total_entries (default "facility" name) thr rows d1) as [d2 Hcover].
    { intros r [i Hr]%list_elem_of_lookup_1.
      destruct (Hacc i r Hr) as (Hf & (k & Hk & _) & Hdist).
      split_and!; [done | | done]. exists k. split; [done|].
      apply Hkeys. right. exists r. split; [by eapply list_elem_of_lookup_2 | done]. }
    { intros k e He. destruct (Hfresh k e) as (i & r & cell & weight & _ & _ & _ & Heq);
        [by intros ?%elem_of_nil | done |].
      rewrite Heq. simpl. rewrite lookup_singleton_eq. by eexists. }
    unfold generate_binary_coverage_from_dist_matrix.
    unfold mbind, M_bind, logging_info, lift; simpl.
    rewrite Hinit. simpl. rewrite Hcover. simpl. by eexists _, _.
Qed.

Abbreviation well_formed_row :=
  (well_formed_row py_float dl_id_field fl_id_field demand_field distance_field).

(** A run of the builder whose first loop raises. *)
Lemma generate_first_loop_raises rows thr name w e :
  for_each (init_row (default "facility" name)) rows ([], ∅, ∅) = Raise e →
  generate rows thr name w = (logged_first w, Raise e).
Proof.
  intros Hinit. unfold generate_binary_coverage_from_dist_matrix.
  unfold mbind, M_bind, logging_info, lift; simpl. by rewrite Hinit.
Qed.

(** A run of the builder whose second loop raises. *)
Lemma generate_second_loop_raises rows thr name w d1 sf sd e :
  for_each (init_row (default "facility" name)) rows ([], ∅, ∅) = Ok (d1, sf, sd) →
  for_each (cover_row (default "facility" name) thr) rows d1 = Raise e →
  generate rows thr name w = (logged_second w, Raise e).
Proof.
  intros Hinit Hcover. unfold generate_binary_coverage_from_dist_matrix.
  unfold mbind, M_bind, logging_info, lift; simpl. rewrite Hinit. simpl.
  rewrite Hcover. unfold logged_second. simpl. by rewrite <-app_assoc.
Qed.

(** X5. The first loop stops at the first defective row [r], after the
    first log message only: with [KeyError] for a missing facility id or
    demand id, and, when the demand id of [r] is new, with [KeyError] for a
    missing weight and [ValueError] for a weight that does not parse. *)
Theorem first_loop_raises_at_first_defective_row pre r post thr name w :
  Forall well_formed_row pre →
  (r !! fl_id_field = None →
   generate (pre ++ r :: post) thr name w =
     (logged_first w, Raise (KeyError fl_id_field))) ∧
  (is_Some (r !! fl_id_field) → r !! dl_id_field = None →
   generate (pre ++ r :: post) thr name w =
     (logged_first w, Raise (KeyError dl_id_field))) ∧
  (∀ k, is_Some (r !! fl_id_field) → r !! dl_id_field = Some k →
        (∀ r', r' ∈ pre → r' !! dl_id_field ≠ Some k) →
        (r !! demand_field = None →
         generate (pre ++ r :: post) thr name w =
           (logged_first w, Raise (KeyError demand_field))) ∧
        (∀ cell, r !! demand_field = Some cell → py_float cell = None →
         generate (pre ++ r :: post) thr name w =
           (logged_first w, Raise (ValueError cell)))).
Proof.
  intros Hpre.
  destruct (init_rows_total py_float dl_id_field fl_id_field demand_field distance_field
              (default "facility" name) pre ([], ∅, ∅) Hpre) as [[[d1 sf] sd] Hinit].
  pose proof empty_state_keys as Hempty.
  pose proof Hinit as (Hsd & Hkeys & _)%init_rows_inv; [|done].
  assert (∀ e, init_row (default "facility" name) (d1, sf, sd) r = Raise e →
            generate (pre ++ r :: post) thr name w = (logged_first w, Raise e)) as Hraise.
  { intros e He. apply generate_first_loop_raises.
    rewrite for_each_app, Hinit. change (Ok ?s ≫= ?k) with (k s).
    change (for_each ?f (r :: post) ?s) with (f s r ≫= for_each f post).
    by rewrite He. }
  split_and!.
  - intros Hf. apply Hraise. unfold init_row, getitem. by rewrite Hf.
  - intros [f Hf] Hk. apply Hraise. unfold init_row, getitem. by rewrite Hf, Hk.
  - intros k [f Hf] Hk Hnew.
    assert (k ∉ sd) as Hnin.
    { rewrite Hsd, Hkeys. intros [?%elem_of_nil|(r' & Hr' & Hk')]; [done|].
      by apply (Hnew r'). }
    split.
    + intros Hd. apply Hraise. unfold init_row, getitem.
      rewrite Hf, Hk. simpl. rewrite decide_True by done. by rewrite Hd.
    + intros cell Hd Hparse. apply Hraise. unfold init_row, getitem, float_of.
      rewrite Hf, Hk. simpl. rewrite decide_True by done. rewrite Hd. simpl.
      by rewrite Hparse.
Qed.

(** X6. When the first loop runs to its end, the second loop stops at the
    first row [r] whose distance is missing ([KeyError]) or does not parse
    ([ValueError], naming the cell of [r]), after the second log message:
    the rows before [r] have distances that parse, and the rows after [r]
    are never read by the second loop, whatever their distances are. *)
Theorem second_loop_raises_at_first_bad_distance pre r post thr name w :
  first_loop_accepts py_float dl_id_field fl_id_field demand_field (pre ++ r :: post) →
  Forall (distance_parses py_float distance_field) pre →
  (r !! distance_field = None →
   generate (pre ++ r :: post) thr name w =
     (logged_second w, Raise (KeyError distance_field))) ∧
  (∀ cell, r !! distance_field = Some cell → py_float cell = None →
   generate (pre ++ r :: post) thr name w =
     (logged_second w, Raise (ValueError cell))).
Proof.
  intros Hacc Hpre.
  destruct (init_rows_total_new_ids (default "facility" name) (pre ++ r :: post) [] ∅ ∅)
    as [[[d1 sf] sd] Hinit].
  { intros i r' Hr'. destruct (Hacc i r' Hr') as (Hf' & k' & Hk' & Hparse).
    split; [done|]. exists k'. split; [done|]. intros _ Hmin.
    apply Hparse. by split_and!. }
  pose proof empty_state_keys as Hempty.
  pose proof Hinit as (_ & Hkeys & _ & Hfresh & _)%init_rows_inv; [|done].
  destruct (cover_rows_total_entries (default "facility" name) thr pre d1) as [d2 Hcover].
  { intros r' Hr'.
    assert (r' ∈ (pre ++ r :: post)%list) as [i Hi]%list_elem_of_lookup_1
      by (apply elem_of_app; by left).
    destruct (Hacc i r' Hi) as (Hf' & k' & Hk' & _).
    apply Forall_forall with (x := r') in Hpre; [|done].
    split_and!; [done | | done]. exists k'. split; [done|].
    apply Hkeys. right. exists r'. split; [apply elem_of_app; by left | done]. }
  { intros k e He. destruct (Hfresh k e) as (i & r' & cell & weight & _ & _ & _ & Heq);
      [by intros ?%elem_of_nil | done |].
    rewrite Heq. simpl. rewrite lookup_singleton_eq. by eexists. }
  assert (∀ e, cover_row (default "facility" name) thr d2 r = Raise e →
            generate (pre ++ r :: post) thr name w = (logged_second w, Raise e)) as Hraise.
  { intros e He. eapply generate_second_loop_raises; [done|].
    rewrite for_each_app, Hcover. change (Ok ?s ≫= ?k) with (k s).
    change (for_each ?f (r :: post) ?s) with (f s r ≫= for_each f post).
    by rewrite He. }
  split.
  - intros Hdist. apply Hraise. unfold cover_row, getitem. by rewrite Hdist.
  - intros cell Hdist Hparse. apply Hraise. unfold cover_row, getitem, float_of.
    rewrite Hdist. simpl. by rewrite Hparse.
Qed.
End BuilderMore.

Lemma facilities_are_row_facility_ids_witness :
  ∃ l, facilities example_model = {[ default "facility" None := l ]} ∧
       NoDup l ∧
       ∀ f, f ∈ l ↔ ∃ r, r ∈ example_rows ∧ r !! "facility_id" = Some f.
Proof.
  exact (facilities_are_row_facility_ids PyFloat.of_decimal
           "demand_id" "facility_id" "demand" "distance"
           example_rows 5000 None w0 w1 example_model example_run).
Defined.

Lemma entry_has_one_coverage_key_witness :
  Demand.area (mk_entry 10 10 ["F1"]) = 0%Z ∧
  dom (Demand.coverage (mk_entry 10 10 ["F1"])) = {[ default "facility" None ]}.
Proof.
  apply (entry_has_one_coverage_key PyFloat.of_decimal
           "demand_id" "facility_id" "demand" "distance"
           example_rows 5000 None w0 w1 example_model example_run "D1").
  reflexivity.
Defined.

Lemma serviceable_iff_coverage_nonempty_witness :
  (gset_to_gmap 1%Z (list_to_set ["F1"] : gset string) ≠ ∅ →
   Demand.serviceableDemand (mk_entry 10 10 ["F1"]) = Demand.demand (mk_entry 10 10 ["F1"])) ∧
  (gset_to_gmap 1%Z (list_to_set ["F1"] : gset string) = ∅ →
   Demand.serviceableDemand (mk_entry 10 10 ["F1"]) = PyFloat.zero).
Proof.
  apply (serviceable_iff_coverage_nonempty PyFloat.of_decimal
           "demand_id" "facility_id" "demand" "distance"
           example_rows 5000 None w0 w1 example_model example_run "D1");
    reflexivity.
Defined.

Lemma example_row_well_formed :
  well_formed_row PyFloat.of_decimal "demand_id" "facility_id" "demand" "distance"
    (mk_row "F1" "D1" "10" "4000").
Proof.
  split_and!.
  - by exists "F1".
  - by exists "D1".
  - by exists "10", 10%float.
  - by exists "4000", 4000%float.
Qed.

Lemma first_loop_raises_at_first_defective_row_witness :
  generate_default
    (mk_row "F1" "D1" "10" "4000" :: row_without_facility :: example_rows) 5000 w0 =
    (logged_first w0, Raise (KeyError "facility_id")).
Proof.
  destruct (first_loop_raises_at_first_defective_row PyFloat.of_decimal
              "demand_id" "facility_id" "demand" "distance"
              [mk_row "F1" "D1" "10" "4000"] row_without_facility example_rows
              5000 None w0) as [H _].
  - constructor; [apply example_row_well_formed | constructor].
  - apply H. reflexivity.
Defined.

Lemma second_loop_raises_at_first_bad_distance_witness :
  generate_default
    [mk_row "F1" "D1" "10" "4000"; row_with_bad_distance; later_row_without_distance] 5000 w0 =
    (logged_second w0, Raise (ValueError "far")).
Proof.
  destruct (second_loop_raises_at_first_bad_distance PyFloat.of_decimal
              "demand_id" "facility_id" "demand" "distance"
              [mk_row "F1" "D1" "10" "4000"] row_with_bad_distance [later_row_without_distance]
              5000 None w0)
    as [_ H].
  - intros [|[|[|i]]] r; simpl; intros [= <-].
    + split; [by exists "F1"|]. exists "D1". split; [done|]. intros _. by exists "10", 10%float.
    + split; [by exists "F2"|]. exists "D2". split; [done|]. intros _. by exists "5", 5%float.
    + split; [by exists "F3"|]. exists "D1". split; [done|]. intros (_ & _ & Hmin).
      by destruct (Hmin 0 (mk_row "F1" "D1" "10" "4000")); [lia | |].
  - constructor; [by exists "4000", 4000%float | constructor].
  - apply (H "far"); reflexivity.
Defined.

(** * The order of floats is transitive *)

Module Binary64SignedFacts.
Import Binary64 Binary64Facts Binary64Signed.
Local Open Scope Z_scope.

Lemma SFleb_number (x y : spec_float) :
  SFleb x y = true → is_number x = true ∧ is_number y = true.
Proof.
  destruct x as [sx|sx| |sx mx ex], y as [sy|sy| |sy my ey]; intros H;
    try discriminate H; done.
Qed.

Lemma magnitude_bounds (m : positive) (e : Z) :
  bounded prec emax m e = true → 0 < value (S754_finite false m e) < INF.
Proof.
  intros Hb. pose proof (value_finite_bounds m e Hb) as [Hl Hu].
  split; [|done]. eapply Z.lt_le_trans; [|done].
  apply bounded_inv in Hb as [_ [He _]].
  pose proof (digits_positive (Zpos m) ltac:(lia)).
  apply pow2_pos. change emin with (-1074) in *. lia.
Qed.

(** Comparing two numbers is comparing their signed values. *)
Lemma SFleb_signed_value (x y : spec_float) :
  valid_binary x = true → valid_binary y = true →
  is_number x = true → is_number y = true →
  SFleb x y = (signed_value x <=? signed_value y).
Proof.
  intros Vx Vy Nx Ny.
  assert (0 < INF) as HINF by (rewrite INF_eq; by apply pow2_pos).
  destruct x as [sx|sx| |sx mx ex], y as [sy|sy| |sy my ey];
    try discriminate Nx; try discriminate Ny;
    cbv beta iota delta [SpecFloat.valid_binary] in Vx, Vy;
    try (pose proof (magnitude_bounds mx ex Vx));
    try (pose proof (magnitude_bounds my ey Vy));
    unfold SFleb, SFcompare, signed_value.
  - symmetry. by apply Z.leb_le.
  - destruct sy; symmetry; [apply Z.leb_gt | apply Z.leb_le]; lia.
  - destruct sy; symmetry; [apply Z.leb_gt | apply Z.leb_le]; lia.
  - destruct sx; symmetry; [apply Z.leb_le | apply Z.leb_gt]; lia.
  - destruct sx, sy; symmetry; (apply Z.leb_le; lia) || (apply Z.leb_gt; lia).
  - destruct sx, sy; symmetry; (apply Z.leb_le; lia) || (apply Z.leb_gt; lia).
  - destruct sx; symmetry; [apply Z.leb_le | apply Z.leb_gt]; lia.
  - destruct sx, sy; symmetry; (apply Z.leb_le; lia) || (apply Z.leb_gt; lia).
  - destruct sx, sy.
    + (* both negative *)
      destruct (Z.compare_spec ex ey) as [->|Hlt|Hgt].
      * rewrite Pos.compare_cont_spec. simpl. value_simpl.
        pose proof (pow2_pos (ey - emin)) as Hp.
        apply bounded_inv in Vy as [_ [? _]].
        destruct (Pos.compare_spec mx my) as [->|Hm|Hm]; simpl; symmetry.
        -- apply Z.leb_le. lia.
        -- apply Z.leb_gt. nia.
        -- apply Z.leb_le. nia.
      * pose proof (value_lt_exponent mx my ex ey Vx Vy Hlt).
        symmetry. apply Z.leb_gt. lia.
      * pose proof (value_lt_exponent my mx ey ex Vy Vx Hgt).
        symmetry. apply Z.leb_le. lia.
    + symmetry. apply Z.leb_le. lia.
    + symmetry. apply Z.leb_gt. lia.
    + (* both positive *)
      destruct (Z.compare_spec ex ey) as [->|Hlt|Hgt].
      * rewrite Pos.compare_cont_spec. simpl. value_simpl.
        pose proof (pow2_pos (ey - emin)) as Hp.
        apply bounded_inv in Vy as [_ [? _]].
        destruct (Pos.compare_spec mx my) as [->|Hm|Hm]; symmetry.
        -- apply Z.leb_le. lia.
        -- apply Z.leb_le. nia.
        -- apply Z.leb_gt. nia.
      * pose proof (value_lt_exponent mx my ex ey Vx Vy Hlt).
        symmetry. apply Z.leb_le. lia.
      * pose proof (value_lt_exponent my mx ey ex Vy Vx Hgt).
        symmetry. apply Z.leb_gt. lia.
Qed.

(** [<=] on floats is transitive. *)
Lemma leb_trans (x y z : float) :
  PrimFloat.leb x y = true → PrimFloat.leb y z = true → PrimFloat.leb x z = true.
Proof.
  rewrite !leb_spec. intros Hxy Hyz.
  pose proof (SFleb_number _ _ Hxy) as [Nx Ny].
  pose proof (SFleb_number _ _ Hyz) as [_ Nz].
  rewrite SFleb_signed_value in Hxy, Hyz |- * by auto using Prim2SF_valid.
  apply Z.leb_le in Hxy, Hyz. apply Z.leb_le. lia.
Qed.
End Binary64SignedFacts.

(** * The builder and the threshold *)

Section Threshold.
Variable py_float : string → option float.
Variables (dl_id_field fl_id_field demand_field distance_field : string).

Abbreviation init_row := (init_row py_float dl_id_field fl_id_field demand_field).
Abbreviation build_coverage :=
  (build_coverage py_float dl_id_field fl_id_field demand_field distance_field).
Abbreviation generate :=
  (generate_binary_coverage_from_dist_matrix
     py_float dl_id_field fl_id_field demand_field distance_field).
Abbreviation covered_by := (covered_by py_float dl_id_field fl_id_field distance_field).

(** The coverage sets of a returned model, read off the rows. *)
Lemma build_coverage_in_coverage rows thr name m :
  build_coverage rows thr name = Ok m →
  ∀ d f, in_coverage m name d f ↔ covered_by thr rows d f.
Proof.
  intros Hbuild d f.
  apply build_coverage_Ok in Hbuild as (_ & Hkeys & Hentry & _).
  assert (∀ e, dget (demand m) d = Some e →
            ∃ cov, Demand.coverage e !! name = Some cov ∧
                   ∀ f', f' ∈ dom cov ↔ covered_by thr rows d f') as Hcov.
  { intros e He.
    destruct (Hentry d e He) as (i & r & cell & weight & _ & _ & _ & Hafter).
    destruct Hafter as (_ & _ & _ & _ & Hc).
    destruct (Hc ∅) as (cov & Hcov & Hdom); [apply lookup_singleton_eq|].
    exists cov. split; [done|]. intros f'. rewrite Hdom, dom_empty.
    split; [by intros [?%not_elem_of_empty|?] | by right]. }
  split.
  - intros (e & cov & He & Hc & Hf).
    destruct (Hcov e He) as (cov' & Hc' & Hdom).
    assert (cov' = cov) as -> by congruence. by apply Hdom.
  - intros Hby. pose proof Hby as (r & Hr & Hd & _).
    assert (d ∈ dkeys (demand m)) as [e He]%elem_of_dkeys by (apply Hkeys; eauto).
    destruct (Hcov e He) as (cov & Hc & Hdom).
    exists e, cov. split_and!; [done | done | by apply Hdom].
Qed.

(** The keys of a returned model are those that the first loop leaves. *)
Lemma build_coverage_first_loop rows thr name m :
  build_coverage rows thr name = Ok m →
  ∃ d1 sf sd, for_each (init_row name) rows ([], ∅, ∅) = Ok (d1, sf, sd) ∧
              dkeys (demand m) = dkeys d1.
Proof.
  unfold build_coverage. intros H.
  apply bind_Ok in H as ([[d1 sf] sd] & Hinit & H).
  apply bind_Ok in H as (d2 & Hcover & [= <-]). simpl.
  exists d1, sf, sd. split; [done|]. by apply cover_rows_inv in Hcover as [-> _].
Qed.

(** X7. Two runs of the builder on the same rows, the second with a
    threshold at least the first: the demand ids come in the same order,
    the weights are the same, and every coverage set of the first model is
    contained in the one of the second. *)
Theorem larger_threshold_keeps_weights_and_grows_coverage
    rows thr1 thr2 name w1 w1' m1 w2 w2' m2 :
  generate rows thr1 name w1 = (w1', Ok m1) →
  generate rows thr2 name w2 = (w2', Ok m2) →
  PrimFloat.leb thr1 thr2 = true →
  dkeys (demand m1) = dkeys (demand m2) ∧
  (∀ d e1 e2, dget (demand m1) d = Some e1 → dget (demand m2) d = Some e2 →
              Demand.demand e1 = Demand.demand e2) ∧
  (∀ d f, in_coverage m1 (default "facility" name) d f →
          in_coverage m2 (default "facility" name) d f).
Proof.
  intros [H1 _]%generate_Ok [H2 _]%generate_Ok Hle. split_and!.
  - destruct (build_coverage_first_loop _ _ _ _ H1) as (d1 & sf & sd & Hi1 & ->).
    destruct (build_coverage_first_loop _ _ _ _ H2) as (d1' & sf' & sd' & Hi2 & ->).
    congruence.
  - intros d e1 e2 He1 He2.
    apply build_coverage_Ok in H1 as (_ & _ & Hentry1 & _).
    apply build_coverage_Ok in H2 as (_ & _ & Hentry2 & _).
    destruct (Hentry1 d e1 He1) as (i & r & cell & x & Hfirst & Hcell & Hx & Hafter).
    destruct (Hentry2 d e2 He2) as (i' & r' & cell' & x' & Hfirst' & Hcell' & Hx' & Hafter').
    destruct (first_row_for_unique _ _ _ _ _ _ _ Hfirst Hfirst') as [-> ->].
    destruct Hafter as (_ & -> & _). destruct Hafter' as (_ & -> & _). simpl. congruence.
  - intros d f Hin.
    apply (build_coverage_in_coverage _ _ _ _ H1) in Hin
      as (r & Hr & Hd & Hf & cell & x & Hcell & Hx & Hle1).
    apply (build_coverage_in_coverage _ _ _ _ H2).
    exists r. split_and!; [done..|]. exists cell, x. split_and!; [done..|].
    by eapply Binary64SignedFacts.leb_trans.
Qed.
End Threshold.

Lemma example_run_wide :
  generate_default example_rows 6000 w0 = (w1, Ok wide_model).
Proof. vm_compute. reflexivity. Qed.

Lemma larger_threshold_keeps_weights_and_grows_coverage_witness :
  dkeys (demand example_model) = dkeys (demand wide_model) ∧
  (∀ d e1 e2, dget (demand example_model) d = Some e1 →
              dget (demand wide_model) d = Some e2 →
              Demand.demand e1 = Demand.demand e2) ∧
  (∀ d f, in_coverage example_model (default "facility" None) d f →
          in_coverage wide_model (default "facility" None) d f).
Proof.
  apply (larger_threshold_keeps_weights_and_grows_coverage PyFloat.of_decimal
           "demand_id" "facility_id" "demand" "distance"
           example_rows 5000 6000 None w0 w1 example_model w0 w1 wide_model
           example_run example_run_wide).
  reflexivity.
Defined.

(** * More on binary64 addition *)

Module Binary64MoreFacts.
Import Binary64 Binary64Facts.
Local Open Scope Z_scope.



(** The sign of a rounded result is the sign that is asked for. *)
Lemma binary_round_aux_opp (m e : Z) (l : location) :
  binary_round_aux prec emax true m e l = SFopp (binary_round_aux prec emax false m e l).
Proof.
  unfold binary_round_aux.
  destruct (shr_fexp prec emax m e l) as [mrs' e'].
  destruct (shr_fexp prec emax _ e' loc_Exact) as [mrs'' e''].
  destruct (shr_m mrs''); [done | | done].
  by destruct (e'' <=? emax - prec).
Qed.

Lemma binary_round_opp (p : positive) (e : Z) :
  binary_round prec emax true p e = SFopp (binary_round prec emax false p e).
Proof.
  unfold binary_round. destruct (shl_align p e _) as [mz ez].
  apply binary_round_aux_opp.
Qed.

(** A non-zero exact sum does not round to zero. *)
Lemma binary_round_not_zero (p : positive) (e : Z) (s : bool) :
  emin ≤ e → binary_round prec emax false p e ≠ S754_zero s.
Proof.
  intros He Hz. destruct (binary_round_value p e He) as [_ Hv].
  rewrite Hz, value_zero in Hv.
  assert (0 < Zpos p * 2 ^ (e - emin)) as Hpos.
  { apply Z.mul_pos_pos; [lia | apply pow2_pos; lia]. }
  pose proof (rnd_bounds _ Hpos) as [Hl _].
  pose proof (digits_positive _ Hpos).
  pose proof (pow2_pos (digits (Zpos p * 2 ^ (e - emin)) - 1) ltac:(lia)).
  assert (0 < INF) by (rewrite INF_eq; by apply pow2_pos).
  lia.
Qed.

(** A sum is [-0.0] only when both terms are. *)
Lemma SFadd_neg_zero (x y : spec_float) :
  valid_binary x = true → valid_binary y = true →
  SFadd prec emax x y = S754_zero true → x = S754_zero true ∧ y = S754_zero true.
Proof.
  intros Vx Vy.
  destruct x as [[]|[]| |sx mx ex], y as [[]|[]| |sy my ey]; try done.
  cbv beta iota delta [SpecFloat.valid_binary] in Vx, Vy.
  apply bounded_inv in Vx as [_ [Hex _]]. apply bounded_inv in Vy as [_ [Hey _]].
  unfold SFadd, binary_normalize.
  set (ez := Z.min ex ey).
  destruct (cond_Zopp sx _ + cond_Zopp sy _) as [|p|p]; [done | |]; intros Hz.
  - by apply binary_round_not_zero in Hz; [|lia].
  - rewrite binary_round_opp in Hz.
    destruct (binary_round prec emax false p ez) as [s| | |] eqn:Hr; try done.
    by apply binary_round_not_zero in Hr; [|lia].
Qed.

Lemma add_not_neg_zero (a b : float) :
  Prim2SF a ≠ S754_zero true → Prim2SF (PrimFloat.add a b) ≠ S754_zero true.
Proof.
  intros Ha Hz. rewrite add_spec in Hz.
  apply SFadd_neg_zero in Hz as [? _]; auto using Prim2SF_valid.
Qed.

(** Adding [0.0] changes nothing, except on [-0.0]. *)
Lemma add_zero_r (a : float) :
  Prim2SF a ≠ S754_zero true → PrimFloat.add a 0 = a.
Proof.
  intros Ha. apply Prim2SF_inj. rewrite add_spec, Prim2SF_zero.
  by destruct (Prim2SF a) as [[]|[]| |s m e].
Qed.
End Binary64MoreFacts.

(** * Further properties of the summarizer *)



Lemma example_rows_facilities r f :
  r ∈ example_rows → r !! "facility_id" = Some f → f = "F1" ∨ f = "F2".
Proof.
  intros Hin Hf. unfold example_rows in Hin.
  repeat (apply elem_of_cons in Hin as [->|Hin]);
    [| | |by apply elem_of_nil in Hin];
    vm_compute in Hf; injection Hf as <-; auto.
Qed.



Section BuilderAndSummarizer.
Variable py_float : string → option float.
Variables (dl_id_field fl_id_field demand_field distance_field : string).

Abbreviation build_coverage :=
  (build_coverage py_float dl_id_field fl_id_field demand_field distance_field).
Abbreviation generate :=
  (generate_binary_coverage_from_dist_matrix
     py_float dl_id_field fl_id_field demand_field distance_field).

(** What the builder leaves in every entry of the demand dictionary. *)
Lemma build_coverage_entries rows thr name m :
  build_coverage rows thr name = Ok m →
  ∀ d e, (d, e) ∈ demand m →
    ∃ cov, Demand.coverage e !! name = Some cov ∧
      (cov ≠ ∅ → Demand.serviceableDemand e = Demand.demand e) ∧
      (cov = ∅ → Demand.serviceableDemand e = PyFloat.zero) ∧
      (∀ f, f ∈ dom cov → ∃ r, r ∈ rows ∧ r !! fl_id_field = Some f).
Proof.
  intros Hbuild d e Hin.
  pose proof Hbuild as (Hrows & _)%build_coverage_rows.
  apply build_coverage_Ok in Hbuild as (Hnd & _ & Hentry & _).
  apply elem_of_dget_NoDup in Hin; [|done].
  destruct (Hentry d e Hin) as (i & r & cell & weight & _ & _ & _ & Hafter).
  destruct Hafter as (_ & Hd & Hs & _ & Hname). simpl in *.
  destruct (Hname ∅) as (cov & Hcov & Hdom); [apply lookup_singleton_eq|].
  exists cov. split_and!; [done | | |].
  - intros Hne. destruct Hs as [[_ Hs]|[Hn _]]; [congruence|].
    destruct Hn. apply map_choose in Hne as (f & one & Hf).
    assert (f ∈ dom cov) as Hfin by (apply elem_of_dom; by eexists).
    apply Hdom in Hfin as [Hfin|(r' & Hr' & Hk & _ & Hw)];
      [by rewrite dom_empty in Hfin|]. by exists r'.
  - intros ->. destruct Hs as [[(r' & Hr' & Hk & Hw) _]|[_ Hs]]; [|done].
    destruct (Hrows r' Hr') as ([f Hf] & _).
    assert (f ∈ dom (∅ : gmap string Z)) as Hfin by (apply Hdom; right; by exists r').
    by rewrite dom_empty in Hfin.
  - intros f [Hf|(r' & Hr' & _ & Hf' & _)]%Hdom; [by rewrite dom_empty in Hf|].
    by exists r'.
Qed.



(** The loop of the summarizer when every unit with a coverage set is
    covered: it computes the serviceable total. *)
Lemma covered_rows_all_chosen chosen (l : odict Demand.t) (acc : float * float) :
  Forall (λ item,
            ∃ cov, Demand.coverage item.2 !! "facility" = Some cov ∧
              (cov ≠ ∅ → ¬ chosen ## dom cov ∧
                         Demand.serviceableDemand item.2 = Demand.demand item.2) ∧
              (cov = ∅ → Demand.serviceableDemand item.2 = PyFloat.zero)) l →
  Prim2SF acc.1 ≠ S754_zero true →
  for_each (covered_row chosen) l acc.1 = Ok (foldl summary_row acc (dvalues l)).1.
Proof.
  intros Hl. revert acc.
  induction Hl as [|[k e] l (cov & Hcov & Hfull & Hnone) _ IH]; intros acc Hacc; simpl in *.
  - done.
  - unfold getitem. rewrite Hcov. simpl.
    specialize (IH (summary_row acc e)). unfold summary_row at 1 2 in IH. simpl in IH.
    destruct (decide (cov = ∅)) as [->|Hne].
    + rewrite dom_empty_L, bool_decide_true by set_solver. simpl.
      rewrite Hnone in IH by done.
      change PyFloat.zero with 0%float in IH.
      rewrite Binary64MoreFacts.add_zero_r in IH by done. by apply IH.
    + destruct (Hfull Hne) as [Hmeet Hs]. rewrite Hs in IH.
      rewrite bool_decide_false by done. simpl.
      by apply IH, Binary64MoreFacts.add_not_neg_zero.
Qed.

(** X10. Against a model that the builder returns under the variable name
    ["facility"], choosing every facility of the rows makes the summarizer
    count exactly [totalServiceableDemand] as covered, for any weights. *)
Theorem all_facilities_cover_serviceable_demand rows thr name w w' m (chosen : gset string) :
  generate rows thr name w = (w', Ok m) →
  default "facility" name = "facility" →
  (∀ r f, r ∈ rows → r !! fl_id_field = Some f → f ∈ chosen) →
  total_demand_covered m chosen = Ok (totalServiceableDemand m).
Proof.
  intros [Hbuild _]%generate_Ok Hname Hall. rewrite Hname in Hbuild.
  pose proof (build_coverage_entries _ _ _ _ Hbuild) as Hentries.
  apply build_coverage_Ok in Hbuild as (_ & _ & _ & Htotals).
  assert (totalServiceableDemand m =
            (foldl summary_row (PyFloat.zero, PyFloat.zero) (dvalues (demand m))).1) as ->
    by (by rewrite <-Htotals).
  apply (covered_rows_all_chosen chosen (demand m) (PyFloat.zero, PyFloat.zero)); [|done].
  apply Forall_forall. intros [d e] Hin.
  destruct (Hentries d e Hin) as (cov & Hcov & Hfull & Hnone & Hfac).
  exists cov. split_and!; [done | | done].
  intros Hne. split; [|by apply Hfull].
  apply map_choose in Hne as (f & one & Hf).
  assert (f ∈ dom cov) as Hfin by (apply elem_of_dom; by eexists).
  destruct (Hfac f Hfin) as (r & Hr & Hrf).
  intros Hdisj. apply (Hdisj f); [by eapply Hall | done].
Qed.

(** The loop of the summarizer when no unit is covered. *)
Lemma covered_rows_none_chosen chosen (l : odict Demand.t) (a : float) :
  Forall (λ item, ∃ cov, Demand.coverage item.2 !! "facility" = Some cov ∧
                         chosen ## dom cov) l →
  for_each (covered_row chosen) l a = Ok a.
Proof.
  intros Hl. induction Hl as [|[k e] l (cov & Hcov & Hdisj) _ IH]; simpl in *; [done|].
  unfold getitem. rewrite Hcov. simpl. by rewrite bool_decide_true.
Qed.

(** X11. Against a model that the builder returns under the variable name
    ["facility"], a chosen set that holds no facility id of the rows (the
    empty set, for one) covers a demand of [0.0]. *)
Theorem foreign_facilities_cover_nothing rows thr name w w' m (chosen : gset string) :
  generate rows thr name w = (w', Ok m) →
  default "facility" name = "facility" →
  (∀ r f, r ∈ rows → r !! fl_id_field = Some f → f ∉ chosen) →
  total_demand_covered m chosen = Ok PyFloat.zero.
Proof.
  intros [Hbuild _]%generate_Ok Hname Hnone. rewrite Hname in Hbuild.
  pose proof (build_coverage_entries _ _ _ _ Hbuild) as Hentries.
  apply covered_rows_none_chosen.
  apply Forall_forall. intros [d e] Hin.
  destruct (Hentries d e Hin) as (cov & Hcov & _ & _ & Hfac).
  exists cov. split; [done|]. intros f Hchosen Hf.
  destruct (Hfac f Hf) as (r & Hr & Hrf). by apply (Hnone r f).
Qed.
End BuilderAndSummarizer.


Lemma all_facilities_cover_serviceable_demand_witness :
  total_demand_covered example_model {[ "F1"; "F2" ]} =
    Ok (totalServiceableDemand example_model).
Proof.
  apply (all_facilities_cover_serviceable_demand PyFloat.of_decimal
           "demand_id" "facility_id" "demand" "distance"
           example_rows 5000 None w0 w1 example_model {[ "F1"; "F2" ]} example_run).
  - reflexivity.
  - intros r f Hr Hf. destruct (example_rows_facilities r f Hr Hf) as [-> | ->]; set_solver.
Defined.

Lemma foreign_facilities_cover_nothing_witness :
  total_demand_covered example_model {[ "F9" ]} = Ok PyFloat.zero.
Proof.
  apply (foreign_facilities_cover_nothing PyFloat.of_decimal
           "demand_id" "facility_id" "demand" "distance"
           example_rows 5000 None w0 w1 example_model {[ "F9" ]} example_run).
  - reflexivity.
  - intros r f Hr Hf. destruct (example_rows_facilities r f Hr Hf) as [-> | ->];
      by intros [=]%elem_of_singleton.
Defined.

(** * The summarizer inside a whole run *)

(** The loop of the summarizer runs to its end when every entry has a
    coverage set under the key ["facility"]. *)
Lemma covered_rows_total chosen (l : odict Demand.t) (a : float) :
  Forall (λ item, is_Some (Demand.coverage item.2 !! "facility")) l →
  ∃ t, for_each (covered_row chosen) l a = Ok t.
Proof.
  intros Hl. revert a. induction Hl as [|[k e] l [cov Hcov] _ IH]; intros a; simpl in *.
  - by exists a.
  - unfold getitem. rewrite Hcov. simpl. destruct (negb _); apply IH.
Qed.

(** The loop of the summarizer raises at its first entry when that entry
    has no coverage set under the key ["facility"]. *)
Lemma covered_rows_KeyError chosen k (e : Demand.t) (l : odict Demand.t) (a : float) :
  Demand.coverage e !! "facility" = None →
  for_each (covered_row chosen) ((k, e) :: l) a = Raise (KeyError "facility").
Proof. intros Hcov. simpl. unfold getitem. by rewrite Hcov. Qed.

Section SummarizerInRun.
Variable py_float : string → option float.
Variable solve_mclp : coverage_model → Z → string → M (list string).

Abbreviation generate :=
  (generate_binary_coverage_from_dist_matrix py_float
     "demand_id" "facility_id" "demand" "distance").

(** Under the variable name ["facility"] every entry of the model that the
    builder returns has a coverage set under the key that the summarizer
    reads. *)
Lemma generate_facility_key rows thr name w w' m :
  generate rows thr name w = (w', Ok m) →
  default "facility" name = "facility" →
  Forall (λ item, is_Some (Demand.coverage item.2 !! "facility")) (demand m).
Proof.
  intros [Hbuild _]%generate_Ok Hname. rewrite Hname in Hbuild.
  apply Forall_forall. intros [d e] Hin. simpl.
  destruct (build_coverage_entries _ _ _ _ _ _ _ _ _ Hbuild d e Hin) as (cov & Hcov & _).
  by exists cov.
Qed.

(** X15. Against a model that the builder returns under the variable name
    ["facility"], for any chosen set: the loop of the summarizer never
    raises and leaves in [total_demand_covered] the left-to-right sum of
    the weights of exactly the demand units whose coverage set meets the
    chosen set, each unit once, whether or not [totalDemand] is zero; and
    the summarizer raises [ZeroDivisionError] when [totalDemand == 0] and
    otherwise returns the record with the requested number, the size of the
    chosen set, the chosen set, [totalDemand] and the percentage
    [(100 * total_demand_covered) / totalDemand]. *)
Theorem summarizer_on_builder_model rows thr name w w' m chosen num_facility :
  generate rows thr name w = (w', Ok m) →
  default "facility" name = "facility" →
  total_demand_covered m chosen = Ok (float_sum (covered_weights m chosen)) ∧
  summarize_coverage m chosen num_facility =
    if PrimFloat.eqb (totalDemand m) PyFloat.zero then Raise ZeroDivisionError
    else Ok {| number_facility := num_facility;
               number_facility_chosen := size chosen;
               set_facility_id_chosen := chosen;
               total_demand := totalDemand m;
               percent_demand_coverage :=
                 PrimFloat.div (PrimFloat.mul 100 (float_sum (covered_weights m chosen)))
                               (totalDemand m) |}.
Proof.
  intros Hgen Hname.
  destruct (covered_rows_total chosen (demand m) PyFloat.zero
              (generate_facility_key _ _ _ _ _ _ Hgen Hname)) as [t Ht].
  pose proof Ht as ->%covered_rows_Ok.
  assert (total_demand_covered m chosen = Ok (float_sum (covered_weights m chosen))) as Hloop
    by exact Ht.
  split; [done|].
  unfold summarize_coverage, PyFloat.truediv. rewrite Hloop. simpl.
  by destruct (PrimFloat.eqb _ _).
Qed.

(** C3, as the code has it.  With no row loaded the run stops at the
    sample row, with [IndexError], and computes no percentage.  When at
    least two rows are loaded and the run reaches the percentage (under
    the variable name ["facility"]) with a [totalDemand] equal to zero,
    the division itself raises [ZeroDivisionError]: no record, so no NaN
    and no infinity, is returned.  The source holds no test of
    [totalDemand]; the error is the one of Python's [/]. *)
Theorem zero_total_demand_division_raises service_dist num_facility fields w :
  binary_mclp_distance_matrix py_float solve_mclp
    [] service_dist num_facility fields "facility" w = (w, Raise IndexError) ∧
  ∀ rows item w' w'' m ids,
    rows !! 1 = Some item →
    (∀ field, field ∈ fields → field ∈ dom item) →
    generate rows service_dist (Some "facility") w = (w', Ok m) →
    solve_mclp m num_facility "facility" w' = (w'', Ok ids) →
    PrimFloat.eqb (totalDemand m) PyFloat.zero = true →
    binary_mclp_distance_matrix py_float solve_mclp
      rows service_dist num_facility fields "facility" w =
      (w'', Raise ZeroDivisionError).
Proof.
  split; [done|].
  intros rows item w' w'' m ids Hitem Hfields Hgen Hsolve Hzero.
  rewrite (binary_mclp_distance_matrix_summarizes _ _ _ _ _ _ _ _ _ _ _ _ _
             Hitem Hfields Hgen Hsolve).
  destruct (covered_rows_total (list_to_set ids) (demand m) PyFloat.zero
              (generate_facility_key _ _ _ _ _ _ Hgen eq_refl)) as [t Ht].
  unfold summarize_coverage, total_demand_covered, PyFloat.truediv.
  rewrite Ht. simpl. by rewrite Hzero.
Qed.

(** C4, at the inputs where the code departs from it.  The summarizer
    reads every coverage set under the literal key ["facility"], not under
    [facility_variable_name]: in a run under any other variable name, once
    the builder and the solver have returned, the loop raises
    [KeyError('facility')] at the first demand unit, and no weight is added
    and no record returned. *)
Theorem other_variable_name_raises_KeyError
    rows service_dist num_facility fields name w w' w'' item m ids :
  name ≠ "facility" →
  rows !! 1 = Some item →
  (∀ field, field ∈ fields → field ∈ dom item) →
  generate rows service_dist (Some name) w = (w', Ok m) →
  solve_mclp m num_facility name w' = (w'', Ok ids) →
  binary_mclp_distance_matrix py_float solve_mclp
    rows service_dist num_facility fields name w =
    (w'', Raise (KeyError "facility")).
Proof.
  intros Hname Hitem Hfields Hgen Hsolve.
  rewrite (binary_mclp_distance_matrix_summarizes _ _ _ _ _ _ _ _ _ _ _ _ _
             Hitem Hfields Hgen Hsolve).
  apply generate_Ok in Hgen as [Hbuild _]. simpl in Hbuild.
  pose proof Hbuild as (Hrows & _)%build_coverage_rows.
  apply build_coverage_Ok in Hbuild as (_ & Hkeys & Hentry & _).
  destruct (Hrows item) as (_ & [k Hk] & _); [by eapply list_elem_of_lookup_2|].
  assert (k ∈ dkeys (demand m)) as Hin.
  { apply Hkeys. exists item. split; [by eapply list_elem_of_lookup_2 | done]. }
  destruct (demand m) as [|[k0 e0] l] eqn:Hdemand; [by apply elem_of_nil in Hin|].
  destruct (Hentry k0 e0) as (i & r & cell & weight & _ & _ & _ & Hafter).
  { simpl. by rewrite decide_True. }
  destruct Hafter as (_ & _ & _ & Hother & _).
  unfold summarize_coverage, total_demand_covered. rewrite Hdemand.
  rewrite covered_rows_KeyError; [done|].
  rewrite Hother by done. simpl. by apply lookup_singleton_ne.
Qed.
End SummarizerInRun.

Lemma summarizer_on_builder_model_witness :
  total_demand_covered example_model {[ "F1"; "F2" ]} =
    Ok (float_sum (covered_weights example_model {[ "F1"; "F2" ]})) ∧
  summarize_coverage example_model {[ "F1"; "F2" ]} 2 =
    if PrimFloat.eqb (totalDemand example_model) PyFloat.zero then Raise ZeroDivisionError
    else Ok {| number_facility := 2;
               number_facility_chosen := size ({[ "F1"; "F2" ]} : gset string);
               set_facility_id_chosen := {[ "F1"; "F2" ]};
               total_demand := totalDemand example_model;
               percent_demand_coverage :=
                 PrimFloat.div
                   (PrimFloat.mul 100
                      (float_sum (covered_weights example_model {[ "F1"; "F2" ]})))
                   (totalDemand example_model) |}.
Proof.
  apply (summarizer_on_builder_model PyFloat.of_decimal
           example_rows 5000 None w0 w1 example_model {[ "F1"; "F2" ]} 2 example_run).
  reflexivity.
Defined.

Lemma zero_weight_run :
  generate_default zero_weight_rows 5000 w0 = (w1, Ok zero_weight_model).
Proof. vm_compute. reflexivity. Qed.

Lemma zero_total_demand_division_raises_witness :
  binary_mclp_distance_matrix PyFloat.of_decimal first_ids
    zero_weight_rows 5000 1 default_list_field_req "facility" w0 =
    (w1, Raise ZeroDivisionError).
Proof.
  destruct (zero_total_demand_division_raises PyFloat.of_decimal first_ids
              5000 1 default_list_field_req w0) as [_ Hdiv].
  apply (Hdiv zero_weight_rows (mk_row "F2" "D1" "0" "6000") w1 w1 zero_weight_model ["F1"]).
  - reflexivity.
  - apply complete_row_has_default_fields.
  - vm_compute. reflexivity.
  - vm_compute. reflexivity.
  - reflexivity.
Defined.

(** With no demand unit loaded the builder alone would return a model with
    [totalDemand] zero, but the whole function never reaches the division:
    it ends with [IndexError], not with a division error. *)
Lemma no_rows_loaded_raises_IndexError :
  (∃ m, generate_default [] 5000 w0 = (w1, Ok m) ∧
        PrimFloat.eqb (totalDemand m) PyFloat.zero = true) ∧
  binary_mclp_distance_matrix PyFloat.of_decimal first_ids
    [] 5000 1 default_list_field_req "facility" w0 = (w0, Raise IndexError) ∧
  (binary_mclp_distance_matrix PyFloat.of_decimal first_ids
     [] 5000 1 default_list_field_req "facility" w0).2 ≠ Raise ZeroDivisionError.
Proof.
  split_and!.
  - exists empty_model. split; vm_compute; reflexivity.
  - reflexivity.
  - vm_compute. discriminate.
Qed.

Lemma other_variable_name_raises_KeyError_witness :
  binary_mclp_distance_matrix PyFloat.of_decimal first_ids
    example_rows 5000 1 default_list_field_req "store" w0 =
    (w1, Raise (KeyError "facility")).
Proof.
  eapply (other_variable_name_raises_KeyError PyFloat.of_decimal first_ids
            example_rows 5000 1 default_list_field_req "store" w0 w1 w1
            (mk_row "F2" "D1" "10" "6000")).
  - discriminate.
  - reflexivity.
  - apply complete_row_has_default_fields.
  - vm_compute. reflexivity.
  - vm_compute. reflexivity.
Defined.

(** * Further properties of the orchestration *)

Lemma check_required_fields_first_missing before f after (item : row) w :
  (∀ g, g ∈ before → g ∈ dom item) → f ∉ dom item →
  check_required_fields (before ++ f :: after)%list item w =
    (World (stdout w ++ [missing_field_message f]) (log w), Raise (SystemExit 0)).
Proof.
  intros Hbefore Hf. induction before as [|g before IH]; simpl.
  - by rewrite decide_True.
  - rewrite decide_False by (intros Hg; apply Hg, Hbefore; left).
    apply IH. intros g' Hin. apply Hbefore. by right.
Qed.

Section OrchestrationMore.
Variable py_float : string → option float.
Variable solve_mclp : coverage_model → Z → string → M (list string).

(** X14. When the row at index 1 lacks required fields, the one line
    printed is [Error: this field <name> not found in the distance csv]
    for the first of them in the order of [list_field_req]; the fields
    after it are not looked at. *)
Theorem first_missing_field_is_reported
    rows service_dist num_facility (before : list string) field after name w item :
  rows !! 1 = Some item →
  (∀ g, g ∈ before → g ∈ dom item) → field ∉ dom item →
  binary_mclp_distance_matrix py_float solve_mclp
    rows service_dist num_facility (before ++ field :: after)%list name w =
    (World (stdout w ++
              ["Error: this field " ++ field ++ " not found in the distance csv"])
           (log w),
     Raise (SystemExit 0)).
Proof.
  intros Hitem Hbefore Hfield.
  unfold binary_mclp_distance_matrix, list_getitem, lift, mbind, M_bind.
  by rewrite Hitem, check_required_fields_first_missing.
Qed.
End OrchestrationMore.

Lemma example_pipeline_run :
  binary_mclp_distance_matrix PyFloat.of_decimal first_ids
    example_rows 5000 1 default_list_field_req "facility" w0 = (w1, Ok example_record).
Proof. vm_compute. reflexivity. Qed.

Lemma first_missing_field_is_reported_witness :
  binary_mclp_distance_matrix PyFloat.of_decimal first_ids
    rows_with_ids_only 5000 1
    (["facility_id"; "demand_id"] ++ "demand" :: ["distance"])%list "facility" w0 =
    (World ["Error: this field demand not found in the distance csv"] [],
     Raise (SystemExit 0)).
Proof.
  apply (first_missing_field_is_reported PyFloat.of_decimal first_ids
           rows_with_ids_only 5000 1 ["facility_id"; "demand_id"]
           "demand" ["distance"] "facility" w0
           {[ "facility_id" := "F2"; "demand_id" := "D1" ]}).
  - reflexivity.
  - intros g Hg. repeat (apply elem_of_cons in Hg as [->|Hg]);
      [| |by apply elem_of_nil in Hg]; set_solver.
  - apply not_elem_of_dom. reflexivity.
Defined.
